(** * EVM logging instructions (LOG0 .. LOG4), Frontier

    A shallow embedding of [ethereum/frontier/vm/instructions/log.py]:
    the shared executor [log_n] and its five arity-specialised entry
    points [log0] .. [log4].

    The executor mutates the frame it is given and may raise in the middle
    of its body; a Python exception leaves every mutation performed so far
    in place.  A run of the executor is therefore modelled as a function
    from the frame before the call to
      - the outcome (normal return or the exception raised),
      - the frame as it stands when control leaves the function, and
      - the sequence of side effects performed, in program order. *)

From Stdlib Require Import ZArith List Lia Bool.
From Stdlib Require Import Strings.Byte.
Import ListNotations.
Open Scope Z_scope.

(** ** Base types ([ethereum.base_types]) *)

Module BaseTypes.

(** Largest value of a 256-bit machine word. *)
Definition U256_MAX_VALUE : Z := 2 ^ 256 - 1.

(** [Uint(w)]: the unbounded unsigned integer with the value of the
    word [w].  Integers are embedded in [Z], so the conversion keeps the
    value and only changes which arithmetic applies afterwards. *)
Definition Uint (w : Z) : Z := w.

Definition byte_of_Z (z : Z) : byte :=
  match Byte.of_N (Z.to_N (Z.land z 255)) with
  | Some b => b
  | None => x00
  end.

(** Modelled from the spec: [U256.to_be_bytes32] of
    [ethereum.base_types], whose source is not part of this development.
    The spec (4.1, step 8) has each popped word "reinterpreted as a
    fixed-width 32-byte topic value"; the method name fixes the byte
    order as big-endian. *)
Definition to_be_bytes32 (w : Z) : list byte :=
  map (fun i : nat => byte_of_Z (Z.shiftr w (8 * Z.of_nat (31 - i))))
      (seq 0 32).

End BaseTypes.
Export BaseTypes.

(** ** Exceptions and outcomes *)

(** The two exceptions of the instruction, and the clean failure of
    word arithmetic whose result does not fit a machine word. *)
Inductive exn : Type :=
| StackUnderflowError
| OutOfGasError
| ArithmeticOverflow.

Inductive result (A : Type) : Type :=
| Ok (a : A)
| Raise (e : exn).
Arguments Ok {A} a.
Arguments Raise {A} e.

Definition is_ok {A : Type} (r : result A) : bool :=
  match r with Ok _ => true | Raise _ => false end.

(** Modelled from the spec: the arithmetic of [U256] values from
    [ethereum.base_types], whose source is not part of this development.
    The spec (4.1, step 3) has the fee terms use "overflow-checked arithmetic"
    that must "fail cleanly (not wrap) if the sum would exceed the
    representable range".  Operands are unsigned, so only the upper
    bound can be violated. *)
Definition U256_checked (r : Z) : result Z :=
  if r <=? U256_MAX_VALUE then Ok r else Raise ArithmeticOverflow.

Definition U256_add (a b : Z) : result Z := U256_checked (a + b).
Definition U256_mul (a b : Z) : result Z := U256_checked (a * b).

Definition result_bind {A B : Type} (r : result A) (f : A -> result B)
  : result B :=
  match r with
  | Ok a => f a
  | Raise e => Raise e
  end.

(** ** Data model ([eth_types.Log], [vm.Evm]) *)

Definition Address : Type := list byte.
Definition Bytes : Type := list byte.
Definition Bytes32 : Type := list byte.

(** [Log(address=..., topics=..., data=...)]. *)
Record Log : Type := mkLog {
  address : Address;
  topics : list Bytes32;
  data : Bytes
}.

(** The fields of the frame that [log_n] reads or writes.  The operand
    stack is a list of words whose head is the top of the stack. *)
Record Evm : Type := mkEvm {
  stack : list Z;
  memory : list byte;
  gas_left : Z;
  current : Address;
  logs : list Log
}.

Definition with_stack (evm : Evm) (s : list Z) : Evm :=
  mkEvm s (memory evm) (gas_left evm) (current evm) (logs evm).
Definition with_memory (evm : Evm) (m : list byte) : Evm :=
  mkEvm (stack evm) m (gas_left evm) (current evm) (logs evm).
Definition with_gas_left (evm : Evm) (g : Z) : Evm :=
  mkEvm (stack evm) (memory evm) g (current evm) (logs evm).
Definition with_logs (evm : Evm) (l : list Log) : Evm :=
  mkEvm (stack evm) (memory evm) (gas_left evm) (current evm) l.

(** Memory extent, in bytes. *)
Definition mem_size (m : list byte) : Z := Z.of_nat (length m).

(** ** Side effects and runs *)

(** The observable side effects of the instruction, with their operands. *)
Inductive effect : Type :=
| EPop (w : Z)                   (* a word left the operand stack *)
| EDebit (amount : Z)            (* the gas ledger was debited *)
| EGrow (start size : Z)         (* memory growth was requested *)
| ERead (start size : Z)         (* a memory range was read *)
| EAppend (entry : Log).         (* a record joined the log sequence *)

Record run (A : Type) : Type := Run {
  outcome : result A;
  frame : Evm;
  effects : list effect
}.
Arguments Run {A} outcome frame effects.
Arguments outcome {A} r.
Arguments frame {A} r.
Arguments effects {A} r.

(** Frame-mutating computations that may raise. *)
Definition M (A : Type) : Type := Evm -> run A.

Definition ret {A : Type} (a : A) : M A := fun evm => Run (Ok a) evm [].

Definition bind {A B : Type} (m : M A) (f : A -> M B) : M B :=
  fun evm =>
    let r := m evm in
    match outcome r with
    | Ok a =>
        let r' := f a (frame r) in
        Run (outcome r') (frame r') (effects r ++ effects r')
    | Raise e => Run (Raise e) (frame r) (effects r)
    end.

Definition gets {A : Type} (f : Evm -> A) : M A :=
  fun evm => Run (Ok (f evm)) evm [].

(** A pure computation that may raise, run without touching the frame. *)
Definition lift {A : Type} (r : result A) : M A :=
  fun evm => Run r evm [].

Declare Scope evm_scope.
Delimit Scope evm_scope with evm.
Notation "x <- m ;; k" := (bind m (fun x => k))
  (at level 61, m at next level, right associativity) : evm_scope.
Notation "m ;;; k" := (bind m (fun _ => k))
  (at level 61, right associativity) : evm_scope.

(** ** Collaborators with a fixed contract *)

(** Modelled from the spec: [pop] of [vm/stack.py], whose source is
    not part of this development.  Spec 6: "Stack.pop() -> word: fails with
    stack-underflow if empty"; otherwise the top word leaves the stack. *)
Definition pop (s : list Z) : result (Z * list Z) :=
  match s with
  | [] => Raise StackUnderflowError
  | w :: rest => Ok (w, rest)
  end.

(** [pop(evm.stack)]: the list held by the frame is the one mutated. *)
Definition pop_stack : M Z :=
  fun evm =>
    match pop (stack evm) with
    | Ok (w, rest) => Run (Ok w) (with_stack evm rest) [EPop w]
    | Raise e => Run (Raise e) evm []
    end.

(** Modelled from the spec: [subtract_gas] of [vm/gas.py], whose source
    is not part of this development.  Spec 6: "GasLedger.debit(amount):
    failure iff amount > remaining; success deducts atomically". *)
Definition subtract_gas (gas amount : Z) : result Z :=
  if gas <? amount then Raise OutOfGasError else Ok (gas - amount).

(** [evm.gas_left = subtract_gas(evm.gas_left, amount)]: the field is
    assigned only when the call returns. *)
Definition charge_gas (amount : Z) : M unit :=
  fun evm =>
    match subtract_gas (gas_left evm) amount with
    | Ok g => Run (Ok tt) (with_gas_left evm g) [EDebit amount]
    | Raise e => Run (Raise e) evm []
    end.

(** [evm.logs.append(entry)]. *)
Definition append_log (entry : Log) : M unit :=
  fun evm => Run (Ok tt) (with_logs evm (logs evm ++ [entry])) [EAppend entry].

(** ** Collaborators taken as parameters *)

(** The gas constants of [vm/gas.py] and the memory collaborators of
    [vm/gas.py] and [vm/memory.py] are imported by [log.py] by name;
    their values and bodies are not part of this development and are
    taken as parameters. *)
Class Collaborators : Type := {
  GAS_LOG : Z;
  GAS_LOG_DATA : Z;
  GAS_LOG_TOPIC : Z;
  (** memory-growth cost oracle: memory, start position, size *)
  calculate_gas_extend_memory : list byte -> Z -> Z -> Z;
  (** memory after the growth request: memory, start position, size *)
  extend_memory : list byte -> Z -> Z -> list byte;
  (** the bytes read: memory, start position, size *)
  memory_read_bytes : list byte -> Z -> Z -> Bytes
}.

Section Executor.
Context {C : Collaborators}.
Local Open Scope evm_scope.

(** [extend_memory(evm.memory, start, size)] mutates the frame's memory. *)
Definition grow_memory (start size : Z) : M unit :=
  fun evm =>
    Run (Ok tt) (with_memory evm (extend_memory (memory evm) start size))
        [EGrow start size].

(** [memory_read_bytes(evm.memory, start, size)]. *)
Definition read_memory (start size : Z) : M Bytes :=
  fun evm =>
    Run (Ok (memory_read_bytes (memory evm) start size)) evm
        [ERead start size].

(** The fee expression of [log_n] (the parenthesised sum assigned to
    [gas_cost]), evaluated left to right in word arithmetic. *)
Definition log_gas_cost (mem : list byte) (memory_start_index size : Z)
           (num_topics : nat) : result Z :=
  result_bind (U256_mul GAS_LOG_DATA size) (fun data_fee =>
  result_bind (U256_add GAS_LOG data_fee) (fun acc1 =>
  result_bind (U256_mul GAS_LOG_TOPIC (Z.of_nat num_topics)) (fun topic_fee =>
  result_bind (U256_add acc1 topic_fee) (fun acc2 =>
  U256_add acc2
    (calculate_gas_extend_memory mem memory_start_index size))))).

(** The same four terms summed in unbounded arithmetic: the value of the
    fee whenever its computation succeeds. *)
Definition fee_sum (mem : list byte) (start size : Z) (n : nat) : Z :=
  GAS_LOG + GAS_LOG_DATA * size + GAS_LOG_TOPIC * Z.of_nat n
  + calculate_gas_extend_memory mem start size.

(** The loop [for _ in range(num_topics)]: each round pops a word and
    appends its 32-byte form to the topics of the record being built. *)
Fixpoint pop_topics (num_topics : nat) (log_entry : Log) : M Log :=
  match num_topics with
  | O => ret log_entry
  | S k =>
      w <- pop_stack ;;
      let topic := to_be_bytes32 w in
      pop_topics k (mkLog (address log_entry)
                          (topics log_entry ++ [topic])
                          (data log_entry))
  end.

(** [log_n(evm, num_topics)]. *)
Definition log_n (evm : Evm) (num_topics : nat) : run unit :=
  ( w <- pop_stack ;;
    let memory_start_index := Uint w in
    size <- pop_stack ;;
    mem <- gets memory ;;
    gas_cost <- lift (log_gas_cost mem memory_start_index size num_topics) ;;
    charge_gas gas_cost ;;;
    grow_memory memory_start_index size ;;;
    addr <- gets current ;;
    payload <- read_memory memory_start_index size ;;
    let log_entry := mkLog addr [] payload in
    log_entry <- pop_topics num_topics log_entry ;;
    append_log log_entry ) evm.

(** [functools.partial(f, num_topics=k)]. *)
Definition partial {A B : Type} (f : Evm -> A -> B) (num_topics : A)
  : Evm -> B :=
  fun evm => f evm num_topics.

Definition log0 : Evm -> run unit := partial log_n 0%nat.
Definition log1 : Evm -> run unit := partial log_n 1%nat.
Definition log2 : Evm -> run unit := partial log_n 2%nat.
Definition log3 : Evm -> run unit := partial log_n 3%nat.
Definition log4 : Evm -> run unit := partial log_n 4%nat.

End Executor.

(** ** Integer classes ([ethereum.base_types])

    [log_n] converts the popped offset from class [U256] to class [Uint]
    before it hands it to the memory collaborators ("Converting
    memory_start_index to Uint as memory_start_index + size - 1 can
    overflow U256").  Which arithmetic a Python [+] performs is decided
    by the class of its left operand, so this part of the model carries
    the class along with the value. *)







Section ClassedExecutor.
Context {C : Collaborators}.
Local Open Scope evm_scope.






End ClassedExecutor.

(** ** Well-formed operands *)

(** A machine word: an unsigned value of at most 256 bits. *)
Definition is_U256 (w : Z) : Prop := 0 <= w <= U256_MAX_VALUE.

(** ** Contracts of the parameters

    What the spec states about the collaborators taken as parameters;
    each theorem names the contracts it relies on. *)

(** Modelled from the spec: the gas constants of [vm/gas.py].  The fee
    terms are unsigned quantities (spec 3, "gas remaining (unsigned
    integer"; 4.1 step 3). *)
Definition fees_unsigned (C : Collaborators) : Prop :=
  0 <= GAS_LOG /\ 0 <= GAS_LOG_DATA /\ 0 <= GAS_LOG_TOPIC.

(** Modelled from the spec: [calculate_gas_extend_memory] of
    [vm/gas.py], which returns a fee (spec 6, "cost(currentSize, offset,
    size) -> fee"), an unsigned quantity like the other fee terms. *)
Definition growth_fee_unsigned (C : Collaborators) : Prop :=
  forall mem start size,
    0 <= start -> 0 <= size ->
    0 <= calculate_gas_extend_memory mem start size.

(** Modelled from the spec: [calculate_gas_extend_memory] of
    [vm/gas.py].  Spec 4.1, step 3: the growth fee is "zero if the region
    is already within current memory bounds". *)
Definition growth_fee_zero_when_covered (C : Collaborators) : Prop :=
  forall mem start size,
    0 <= start -> 0 <= size -> start + size <= mem_size mem ->
    calculate_gas_extend_memory mem start size = 0.

(** Modelled from the spec: [calculate_gas_extend_memory] of
    [vm/gas.py], the fee "for extending memory to cover
    [offset, offset+size)" (spec 4.1, step 3): covering a longer range
    from the same offset is not cheaper. *)
Definition growth_fee_monotone (C : Collaborators) : Prop :=
  forall mem start size1 size2,
    0 <= start -> 0 <= size1 -> size1 <= size2 ->
    calculate_gas_extend_memory mem start size1
    <= calculate_gas_extend_memory mem start size2.

(** Modelled from the spec: [extend_memory] of [vm/memory.py].  Spec 6:
    Memory.extend "grows memory monotonically to cover the byte range",
    the offset being a wide unsigned integer. *)
Definition extend_covers_range (C : Collaborators) : Prop :=
  forall mem start size,
    0 <= start -> 0 < size ->
    start + size <= mem_size (extend_memory mem start size).

(** Modelled from the spec: [memory_read_bytes] of [vm/memory.py].
    Spec 4.1, step 6: "Read exactly size bytes starting at offset";
    "Reading a zero-length region yields an empty payload". *)
Definition read_exact_size (C : Collaborators) : Prop :=
  forall mem start size,
    0 <= start -> 0 <= size ->
    size = 0 \/ start + size <= mem_size mem ->
    mem_size (memory_read_bytes mem start size) = size.

(** ** The canonical order of side effects *)

Inductive effect_kind : Type := KPop | KDebit | KGrow | KRead | KAppend.

Definition kind_of (e : effect) : effect_kind :=
  match e with
  | EPop _ => KPop
  | EDebit _ => KDebit
  | EGrow _ _ => KGrow
  | ERead _ _ => KRead
  | EAppend _ => KAppend
  end.

(** The side effects of a complete run with [num_topics] topics. *)
Definition schedule (num_topics : nat) : list effect_kind :=
  [KPop; KPop; KDebit; KGrow; KRead] ++ repeat KPop num_topics ++ [KAppend].

(** The words that left the stack during a run, in pop order. *)
Fixpoint popped (es : list effect) : list Z :=
  match es with
  | [] => []
  | EPop w :: rest => w :: popped rest
  | _ :: rest => popped rest
  end.

(** ** The shapes a run can take

    One constructor per exit of [log_n]: the two operand pops, the fee
    computation, the debit, the topic loop, and the normal return.
    [log_n_run_complete] below shows that every run has one of them. *)

Definition log_record {C : Collaborators} (evm : Evm) (start size : Z)
           (ts : list Z) : Log :=
  mkLog (current evm) (map to_be_bytes32 ts)
        (memory_read_bytes (extend_memory (memory evm) start size) start size).

Inductive log_n_run {C : Collaborators} (evm : Evm) (n : nat)
  : run unit -> Prop :=
| run_no_operand :
    stack evm = [] ->
    log_n_run evm n (Run (Raise StackUnderflowError) evm [])
| run_one_operand (w : Z) :
    stack evm = [w] ->
    log_n_run evm n
      (Run (Raise StackUnderflowError) (with_stack evm []) [EPop w])
| run_fee_failure (start size : Z) (rest : list Z) (e : exn) :
    stack evm = start :: size :: rest ->
    log_gas_cost (memory evm) start size n = Raise e ->
    log_n_run evm n
      (Run (Raise e) (with_stack evm rest) [EPop start; EPop size])
| run_out_of_gas (start size : Z) (rest : list Z) (fee : Z) :
    stack evm = start :: size :: rest ->
    log_gas_cost (memory evm) start size n = Ok fee ->
    gas_left evm < fee ->
    log_n_run evm n
      (Run (Raise OutOfGasError) (with_stack evm rest) [EPop start; EPop size])
| run_topic_underflow (start size : Z) (rest : list Z) (fee : Z) :
    stack evm = start :: size :: rest ->
    log_gas_cost (memory evm) start size n = Ok fee ->
    fee <= gas_left evm ->
    (length rest < n)%nat ->
    log_n_run evm n
      (Run (Raise StackUnderflowError)
           (mkEvm [] (extend_memory (memory evm) start size)
                  (gas_left evm - fee) (current evm) (logs evm))
           ([EPop start; EPop size; EDebit fee; EGrow start size;
             ERead start size] ++ map EPop rest))
| run_success (start size : Z) (ts rest : list Z) (fee : Z) :
    stack evm = start :: size :: ts ++ rest ->
    length ts = n ->
    log_gas_cost (memory evm) start size n = Ok fee ->
    fee <= gas_left evm ->
    log_n_run evm n
      (Run (Ok tt)
           (mkEvm rest (extend_memory (memory evm) start size)
                  (gas_left evm - fee) (current evm)
                  (logs evm ++ [log_record evm start size ts]))
           ([EPop start; EPop size; EDebit fee; EGrow start size;
             ERead start size] ++ map EPop ts
              ++ [EAppend (log_record evm start size ts)])).

(** ** Underflow precedence as the spec words it

    Spec 4.1: with fewer than [2 + topicCount] words the operation
    "fails with a stack-underflow condition before any state is mutated
    (no partial pops, no gas charged)", and "neither the ledger nor
    memory nor the log is touched". *)
Definition underflow_before_any_mutation {C : Collaborators}
           (evm : Evm) (n : nat) : Prop :=
  (length (stack evm) < 2 + n)%nat ->
  outcome (log_n evm n) = Raise StackUnderflowError
  /\ stack (frame (log_n evm n)) = stack evm
  /\ gas_left (frame (log_n evm n)) = gas_left evm
  /\ mem_size (memory (frame (log_n evm n))) = mem_size (memory evm)
  /\ logs (frame (log_n evm n)) = logs evm.

(** ** A sample set of collaborators

    An instance with the shape the spec describes: growth in 32-byte
    words, priced with a linear and a quadratic component.  The theorems
    hold for every instance meeting the contracts they name; this one
    runs them on concrete frames. *)

Module Sample.

Definition words (size_in_bytes : Z) : Z := (size_in_bytes + 31) / 32.

Definition memory_cost (size_in_bytes : Z) : Z :=
  let w := words size_in_bytes in 3 * w + (w * w) / 512.

Definition growth_fee (mem : list byte) (start size : Z) : Z :=
  if (size =? 0) || (start + size <=? mem_size mem) then 0
  else memory_cost (start + size) - memory_cost (mem_size mem).

Definition grow (mem : list byte) (start size : Z) : list byte :=
  if (size =? 0) || (start + size <=? mem_size mem) then mem
  else mem ++ repeat x00 (Z.to_nat (32 * words (start + size) - mem_size mem)).

Definition read (mem : list byte) (start size : Z) : Bytes :=
  firstn (Z.to_nat size) (skipn (Z.to_nat start) mem).

Definition collaborators : Collaborators := {|
  GAS_LOG := 375;
  GAS_LOG_DATA := 8;
  GAS_LOG_TOPIC := 375;
  calculate_gas_extend_memory := growth_fee;
  extend_memory := grow;
  memory_read_bytes := read
|}.

(** A contract address. *)
Definition contract : Address := [xc0; xff; xee].

(** Four bytes of payload already in memory. *)
Definition deadbeef : list byte := [xde; xad; xbe; xef].

(** Offset 0, size 4, then the topics 10 and 11, then an unrelated word. *)
Definition frame2 : Evm := mkEvm [0; 4; 10; 11; 99] deadbeef 5000 contract [].

(** The same operands with too little gas for the fee of 1157. *)
Definition frame2_poor : Evm :=
  mkEvm [0; 4; 10; 11; 99] deadbeef 1000 contract [].

(** A single word on the stack. *)
Definition frame_one_word : Evm := mkEvm [7] [] 1000 contract [].

(** Offset 0, size 36 and one topic: memory has to grow from 4 bytes. *)
Definition frame_growing : Evm := mkEvm [0; 36; 10] deadbeef 5000 contract [].

(** Offset and size only: nothing left for a topic. *)
Definition frame_no_topic : Evm := mkEvm [0; 0] [] 1000 contract [].

End Sample.

(** ** Collaborators with free memory

    An instance in which growing memory costs nothing, so that a range
    ending beyond the largest machine word is affordable. *)

Module FlatFee.

Definition collaborators : Collaborators := {|
  GAS_LOG := 375;
  GAS_LOG_DATA := 8;
  GAS_LOG_TOPIC := 375;
  calculate_gas_extend_memory := fun _ _ _ => 0;
  extend_memory := Sample.grow;
  memory_read_bytes := Sample.read
|}.


End FlatFee.

(** * Properties *)

(** ** The runs of the executor, case by case *)

Section Runs.
Context {C : Collaborators}.

Lemma with_stack_same (evm : Evm) : with_stack evm (stack evm) = evm.
Proof. destruct evm; reflexivity. Qed.

(** The topic loop on a stack that holds enough words. *)
Lemma pop_topics_enough (n : nat) :
  forall (entry : Log) (evm : Evm),
    (n <= length (stack evm))%nat ->
    pop_topics n entry evm =
    Run (Ok (mkLog (address entry)
                   (topics entry ++ map to_be_bytes32 (firstn n (stack evm)))
                   (data entry)))
        (with_stack evm (skipn n (stack evm)))
        (map EPop (firstn n (stack evm))).
Proof.
  induction n as [|k IH]; intros entry evm Hlen.
  - cbn. rewrite app_nil_r, with_stack_same. destruct entry; reflexivity.
  - destruct evm as [st mem g cur lg]. destruct st as [|w rest].
    + cbn in Hlen. lia.
    + cbn in Hlen. cbn [pop_topics].
      unfold bind at 1. cbn [pop_stack pop stack outcome frame effects].
      rewrite IH by (cbn; lia).
      cbn. rewrite <- app_assoc. reflexivity.
Qed.

(** The topic loop on a stack that runs dry: every word present is
    popped before the underflow is signalled. *)
Lemma pop_topics_short (n : nat) :
  forall (entry : Log) (evm : Evm),
    (length (stack evm) < n)%nat ->
    pop_topics n entry evm =
    Run (Raise StackUnderflowError) (with_stack evm []) (map EPop (stack evm)).
Proof.
  induction n as [|k IH]; intros entry evm Hlen; [lia|].
  destruct evm as [st mem g cur lg]. destruct st as [|w rest].
  - reflexivity.
  - cbn in Hlen. cbn [pop_topics].
    unfold bind at 1. cbn [pop_stack pop stack outcome frame effects].
    rewrite IH by (cbn; lia). reflexivity.
Qed.

(** Unfolds the sequencing operators and the primitive steps. *)
Ltac run_steps :=
  cbv [bind pop_stack pop gets lift charge_gas subtract_gas grow_memory
       read_memory append_log ret
       outcome frame effects stack memory gas_left current logs
       with_stack with_memory with_gas_left with_logs].

(** [log_n] on a frame with both operands, up to the topic loop. *)
Lemma log_n_operands (st : list Z) (mem : list byte) (g : Z) (cur : Address)
      (lg : list Log) (start size : Z) (n : nat) :
  log_n (mkEvm (start :: size :: st) mem g cur lg) n =
  match log_gas_cost mem start size n with
  | Raise e => Run (Raise e) (mkEvm st mem g cur lg) [EPop start; EPop size]
  | Ok fee =>
      if g <? fee
      then Run (Raise OutOfGasError) (mkEvm st mem g cur lg)
               [EPop start; EPop size]
      else
        let mem' := extend_memory mem start size in
        let r := pop_topics n (mkLog cur [] (memory_read_bytes mem' start size))
                            (mkEvm st mem' (g - fee) cur lg) in
        match outcome r with
        | Ok entry =>
            Run (Ok tt) (with_logs (frame r) (logs (frame r) ++ [entry]))
                ([EPop start; EPop size; EDebit fee; EGrow start size;
                  ERead start size] ++ effects r ++ [EAppend entry])
        | Raise e =>
            Run (Raise e) (frame r)
                ([EPop start; EPop size; EDebit fee; EGrow start size;
                  ERead start size] ++ effects r)
        end
  end.
Proof.
  unfold log_n, Uint. run_steps.
  destruct (log_gas_cost mem start size n) as [fee|e]; [|reflexivity].
  destruct (g <? fee); [reflexivity|].
  cbn beta iota zeta.
  destruct (pop_topics n _ _) as [[entry|e] fr es]; cbn; reflexivity.
Qed.

(** Every run of [log_n] has one of the six shapes. *)
Lemma log_n_run_complete (evm : Evm) (n : nat) : log_n_run evm n (log_n evm n).
Proof.
  destruct evm as [st mem g cur lg].
  destruct st as [|start [|size rest]].
  - apply run_no_operand. reflexivity.
  - apply (run_one_operand _ _ start). reflexivity.
  - rewrite log_n_operands.
    destruct (log_gas_cost mem start size n) as [fee|e] eqn:Hfee.
    + destruct (Z.ltb_spec g fee) as [Hlt|Hge].
      * apply (run_out_of_gas (mkEvm (start :: size :: rest) mem g cur lg)
                              n start size rest fee); auto.
      * cbv zeta.
        destruct (le_lt_dec n (length rest)) as [Hen|Hsh].
        -- rewrite pop_topics_enough by exact Hen.
           cbn [outcome frame effects stack with_stack with_logs logs memory
                gas_left current address topics data app].
           pose proof (run_success (mkEvm (start :: size :: rest) mem g cur lg)
                         n start size (firstn n rest) (skipn n rest) fee) as R.
           cbn [stack memory gas_left current logs] in R.
           unfold log_record in R. cbn [current memory] in R.
           apply R; auto.
           ++ now rewrite firstn_skipn.
           ++ apply firstn_length_le; exact Hen.
        -- rewrite pop_topics_short by exact Hsh.
           cbn [outcome frame effects stack with_stack].
           apply (run_topic_underflow
                    (mkEvm (start :: size :: rest) mem g cur lg)
                    n start size rest fee); auto.
    + apply (run_fee_failure (mkEvm (start :: size :: rest) mem g cur lg)
                             n start size rest e); auto.
Qed.

End Runs.

(** ** The fee *)

Section Fee.
Context {C : Collaborators}.

Lemma U256_checked_ok (r v : Z) :
  U256_checked r = Ok v <-> v = r /\ r <= U256_MAX_VALUE.
Proof.
  unfold U256_checked. destruct (Z.leb_spec r U256_MAX_VALUE); split.
  - intros [= <-]. auto.
  - intros [-> _]. reflexivity.
  - discriminate.
  - intros [_ H']. lia.
Qed.

(** A computed fee is the four-term sum, and every intermediate result
    fitted a machine word. *)
Lemma log_gas_cost_ok (mem : list byte) (start size : Z) (n : nat) (fee : Z) :
  log_gas_cost mem start size n = Ok fee <->
  fee = fee_sum mem start size n
  /\ GAS_LOG_DATA * size <= U256_MAX_VALUE
  /\ GAS_LOG + GAS_LOG_DATA * size <= U256_MAX_VALUE
  /\ GAS_LOG_TOPIC * Z.of_nat n <= U256_MAX_VALUE
  /\ GAS_LOG + GAS_LOG_DATA * size + GAS_LOG_TOPIC * Z.of_nat n
     <= U256_MAX_VALUE
  /\ fee_sum mem start size n <= U256_MAX_VALUE.
Proof.
  unfold log_gas_cost, fee_sum, U256_add, U256_mul. split.
  - intros H.
    destruct (U256_checked (GAS_LOG_DATA * size)) as [a|] eqn:E1;
      cbn in H; [|discriminate].
    apply U256_checked_ok in E1 as [-> ?].
    destruct (U256_checked (GAS_LOG + _)) as [b|] eqn:E2;
      cbn in H; [|discriminate].
    apply U256_checked_ok in E2 as [-> ?].
    destruct (U256_checked (GAS_LOG_TOPIC * _)) as [c|] eqn:E3;
      cbn in H; [|discriminate].
    apply U256_checked_ok in E3 as [-> ?].
    destruct (U256_checked (GAS_LOG + _ + _)) as [d|] eqn:E4;
      cbn in H; [|discriminate].
    apply U256_checked_ok in E4 as [-> ?].
    apply U256_checked_ok in H as [-> ?].
    repeat split; assumption.
  - intros (-> & H1 & H2 & H3 & H4 & H5).
    assert (Hc : forall r, r <= U256_MAX_VALUE -> U256_checked r = Ok r)
      by (intros r Hr; apply U256_checked_ok; auto).
    rewrite (Hc _ H1). cbn. rewrite (Hc _ H2). cbn.
    rewrite (Hc _ H3). cbn. rewrite (Hc _ H4). cbn.
    apply Hc. exact H5.
Qed.

(** The fee computation fails in one way only. *)
Lemma log_gas_cost_raise
      (mem : list byte) (start size : Z) (n : nat) (e : exn) :
  log_gas_cost mem start size n = Raise e -> e = ArithmeticOverflow.
Proof.
  unfold log_gas_cost, U256_add, U256_mul, U256_checked.
  repeat match goal with
         | |- context [?a <=? ?b] => destruct (a <=? b); cbn
         end; congruence.
Qed.

Lemma not_in_map_EPop (e : effect) (ws : list Z) :
  kind_of e <> KPop -> ~ In e (map EPop ws).
Proof.
  intros Hk Hin. apply in_map_iff in Hin. destruct Hin as (w & <- & _).
  apply Hk. reflexivity.
Qed.

End Fee.

(** ** The sample collaborators meet the contracts *)

Lemma sample_fees_unsigned : fees_unsigned Sample.collaborators.
Proof. unfold fees_unsigned; cbn; lia. Qed.

Lemma sample_words_monotone (x y : Z) :
  x <= y -> Sample.words x <= Sample.words y.
Proof.
  intros H. unfold Sample.words. apply Z.div_le_mono; lia.
Qed.

Lemma sample_memory_cost_monotone (x y : Z) :
  0 <= x -> x <= y -> Sample.memory_cost x <= Sample.memory_cost y.
Proof.
  intros Hx Hxy. unfold Sample.memory_cost. cbv zeta.
  pose proof (sample_words_monotone x y Hxy) as Hw.
  assert (H0 : 0 <= Sample.words x)
    by (unfold Sample.words; apply Z.div_pos; lia).
  assert (Hsq : Sample.words x * Sample.words x
                <= Sample.words y * Sample.words y) by nia.
  pose proof (Z.div_le_mono _ _ 512 ltac:(lia) Hsq). lia.
Qed.

Lemma sample_growth_fee_zero_when_covered :
  growth_fee_zero_when_covered Sample.collaborators.
Proof.
  intros mem start size _ _ Hcov. cbn. unfold Sample.growth_fee.
  destruct (Z.leb_spec (start + size) (mem_size mem)); [|lia].
  now rewrite orb_true_r.
Qed.

Lemma sample_growth_fee_monotone : growth_fee_monotone Sample.collaborators.
Proof.
  intros mem start s1 s2 Hstart Hs1 Hle. cbn. unfold Sample.growth_fee.
  assert (Hm : 0 <= mem_size mem) by (unfold mem_size; lia).
  destruct (Z.eqb_spec s1 0), (Z.eqb_spec s2 0),
    (Z.leb_spec (start + s1) (mem_size mem)),
    (Z.leb_spec (start + s2) (mem_size mem)); cbn; try lia.
  all: try (pose proof (sample_memory_cost_monotone (mem_size mem)
                          (start + s2) Hm ltac:(lia)); lia).
  pose proof (sample_memory_cost_monotone (start + s1) (start + s2)
                ltac:(lia) ltac:(lia)). lia.
Qed.

Lemma sample_extend_covers_range : extend_covers_range Sample.collaborators.
Proof.
  intros mem start size Hstart Hsize. cbn. unfold Sample.grow.
  destruct (Z.eqb_spec size 0); [lia|].
  destruct (Z.leb_spec (start + size) (mem_size mem));
    cbn [orb]; [assumption|].
  unfold mem_size in *. rewrite length_app, repeat_length.
  assert (start + size <= 32 * Sample.words (start + size)).
  { unfold Sample.words.
    pose proof (Z.div_mod (start + size + 31) 32 ltac:(lia)).
    pose proof (Z.mod_pos_bound (start + size + 31) 32 ltac:(lia)). lia. }
  lia.
Qed.

Lemma sample_read_exact_size : read_exact_size Sample.collaborators.
Proof.
  intros mem start size Hstart Hsize Hcov. cbn. unfold Sample.read, mem_size.
  rewrite length_firstn, length_skipn.
  destruct Hcov as [-> | Hcov]; [cbn; lia|].
  unfold mem_size in Hcov. lia.
Qed.

(** ** Claims about the fee and the debit *)

Section FeeClaims.
Context {C : Collaborators}.

(** A debit happens only on a frame with both operands, for the fee
    computed from them, and shows in the ledger when control leaves. *)
Lemma log_n_debit_inv (evm : Evm) (n : nat) (fee : Z) :
  In (EDebit fee) (effects (log_n evm n)) ->
  exists start size rest,
    stack evm = start :: size :: rest
    /\ log_gas_cost (memory evm) start size n = Ok fee
    /\ gas_left (frame (log_n evm n)) = gas_left evm - fee.
Proof.
  intros Hin.
  destruct (log_n_run_complete evm n)
    as [H | w H | start size rest e H He | start size rest f H Hf Hlt
        | start size rest f H Hf Hge Hsh | start size ts rest f H Hl Hf Hge];
    cbn [effects frame gas_left app In] in *.
  - destruct Hin.
  - destruct Hin as [Hin|[]]; discriminate.
  - destruct Hin as [Hin|[Hin|[]]]; discriminate.
  - destruct Hin as [Hin|[Hin|[]]]; discriminate.
  - destruct Hin as [Hin|[Hin|[Hin|[Hin|[Hin|Hin]]]]]; try discriminate.
    + injection Hin as <-. exists start, size, rest. auto.
    + exfalso. revert Hin. apply not_in_map_EPop. discriminate.
  - destruct Hin as [Hin|[Hin|[Hin|[Hin|[Hin|Hin]]]]]; try discriminate.
    + injection Hin as <-. exists start, size, (ts ++ rest). auto.
    + exfalso. apply in_app_or in Hin.
      destruct Hin as [Hin|[Hin|[]]]; [|discriminate].
      revert Hin. apply not_in_map_EPop. discriminate.
Qed.

(** C3.  Whenever [log_n] debits a fee, the frame held the two operands
    [start] and [size], the amount debited is exactly the four-term sum
    of the base fee, the per-byte fee times [size], the per-topic fee
    times [num_topics] and the growth fee quoted by the cost oracle for
    the range at [start] of length [size], and the ledger drops by that
    amount; when the range already lies within the memory held, the
    growth term is zero and the amount is the sum of the first three. *)
Theorem C3_fee_is_four_term_sum
        (Hzero : growth_fee_zero_when_covered C)
        (evm : Evm) (n : nat) (fee : Z) :
  In (EDebit fee) (effects (log_n evm n)) ->
  exists start size rest,
    stack evm = start :: size :: rest
    /\ fee = GAS_LOG + GAS_LOG_DATA * size + GAS_LOG_TOPIC * Z.of_nat n
             + calculate_gas_extend_memory (memory evm) start size
    /\ gas_left (frame (log_n evm n)) = gas_left evm - fee
    /\ (0 <= start -> 0 <= size -> start + size <= mem_size (memory evm) ->
        fee = GAS_LOG + GAS_LOG_DATA * size + GAS_LOG_TOPIC * Z.of_nat n).
Proof.
  intros Hin.
  destruct (log_n_debit_inv evm n fee Hin)
    as (start & size & rest & Hst & Hfee & Hgas).
  apply log_gas_cost_ok in Hfee. destruct Hfee as (Hfee & _).
  unfold fee_sum in Hfee.
  exists start, size, rest. repeat split; auto.
  intros H0 H1 Hcov. rewrite (Hzero _ _ _ H0 H1 Hcov) in Hfee. lia.
Qed.

(** C4.  On a frame that holds both operands and whose gas is less than
    the computed fee, [log_n] raises out-of-gas; the log sequence, the
    memory and the gas are as before the call, and the only words popped
    are offset and size, which stay popped: the stack left behind is the
    one below them, so no topic word was taken. *)
Theorem C4_out_of_gas_is_atomic
        (evm : Evm) (n : nat) (start size : Z) (rest : list Z) (fee : Z) :
  stack evm = start :: size :: rest ->
  log_gas_cost (memory evm) start size n = Ok fee ->
  gas_left evm < fee ->
  outcome (log_n evm n) = Raise OutOfGasError
  /\ logs (frame (log_n evm n)) = logs evm
  /\ length (logs (frame (log_n evm n))) = length (logs evm)
  /\ memory (frame (log_n evm n)) = memory evm
  /\ mem_size (memory (frame (log_n evm n))) = mem_size (memory evm)
  /\ gas_left (frame (log_n evm n)) = gas_left evm
  /\ stack (frame (log_n evm n)) = rest
  /\ popped (effects (log_n evm n)) = [start; size].
Proof.
  intros Hst Hfee Hlt.
  destruct evm as [st mem g cur lg]. cbn in Hst, Hfee, Hlt. subst st.
  rewrite log_n_operands, Hfee.
  destruct (Z.ltb_spec g fee); [|lia].
  cbn. repeat split; reflexivity.
Qed.

(** The fee computation is monotone in its three summands that vary. *)
Lemma log_gas_cost_monotone
      (Hu : fees_unsigned C)
      (mem : list byte) (start size1 size2 : Z) (n1 n2 : nat) (fee2 : Z) :
  size1 <= size2 -> (n1 <= n2)%nat ->
  calculate_gas_extend_memory mem start size1
  <= calculate_gas_extend_memory mem start size2 ->
  log_gas_cost mem start size2 n2 = Ok fee2 ->
  exists fee1,
    log_gas_cost mem start size1 n1 = Ok fee1 /\ fee1 <= fee2.
Proof.
  intros Hs Hn Hgrow Hfee2.
  destruct Hu as (Hbase & Hdata & Htopic).
  apply log_gas_cost_ok in Hfee2.
  destruct Hfee2 as (-> & B1 & B2 & B3 & B4 & B5).
  assert (Hd : GAS_LOG_DATA * size1 <= GAS_LOG_DATA * size2) by nia.
  assert (Ht : GAS_LOG_TOPIC * Z.of_nat n1 <= GAS_LOG_TOPIC * Z.of_nat n2)
    by nia.
  exists (fee_sum mem start size1 n1). split.
  - apply log_gas_cost_ok. unfold fee_sum in *. repeat split; lia.
  - unfold fee_sum. lia.
Qed.

(** C8.  Offset and memory being fixed, the fee never decreases when the
    size grows, nor when the number of topics grows: if the fee is
    computed for the larger size (number of topics), it is computed for
    the smaller one too and is at most the former. *)
Theorem C8_fee_monotone
        (Hu : fees_unsigned C) (Hm : growth_fee_monotone C)
        (mem : list byte) (start : Z) :
  0 <= start ->
  (forall size1 size2 n fee2,
      0 <= size1 -> size1 <= size2 ->
      log_gas_cost mem start size2 n = Ok fee2 ->
      exists fee1, log_gas_cost mem start size1 n = Ok fee1 /\ fee1 <= fee2)
  /\ (forall size n1 n2 fee2,
         (n1 <= n2)%nat ->
         log_gas_cost mem start size n2 = Ok fee2 ->
         exists fee1, log_gas_cost mem start size n1 = Ok fee1 /\ fee1 <= fee2).
Proof.
  intros Hstart. split.
  - intros size1 size2 n fee2 Hs1 Hs Hfee2.
    apply (log_gas_cost_monotone Hu mem start size1 size2 n n fee2); auto.
  - intros size n1 n2 fee2 Hn Hfee2.
    apply (log_gas_cost_monotone Hu mem start size size n1 n2 fee2);
      auto; lia.
Qed.

End FeeClaims.

(** C3 on the sample: offset 0, size 4, two topics, payload in memory. *)
Lemma C3_fee_is_four_term_sum_witness :
  let r := log_n (C:=Sample.collaborators) Sample.frame2 2 in
  exists start size rest,
    stack Sample.frame2 = start :: size :: rest
    /\ 1157 = 375 + 8 * size + 375 * Z.of_nat 2
              + Sample.growth_fee (memory Sample.frame2) start size
    /\ gas_left (frame r) = gas_left Sample.frame2 - 1157
    /\ (0 <= start -> 0 <= size ->
        start + size <= mem_size (memory Sample.frame2) ->
        1157 = 375 + 8 * size + 375 * Z.of_nat 2).
Proof.
  intros r.
  apply (C3_fee_is_four_term_sum (C:=Sample.collaborators)
           sample_growth_fee_zero_when_covered Sample.frame2 2%nat 1157).
  vm_compute. auto.
Defined.

(** C4 on the sample: a fee of 1157 against a balance of 1000. *)
Lemma C4_out_of_gas_is_atomic_witness :
  let r := log_n (C:=Sample.collaborators) Sample.frame2_poor 2 in
  outcome r = Raise OutOfGasError
  /\ logs (frame r) = logs Sample.frame2_poor
  /\ length (logs (frame r)) = length (logs Sample.frame2_poor)
  /\ memory (frame r) = memory Sample.frame2_poor
  /\ mem_size (memory (frame r)) = mem_size (memory Sample.frame2_poor)
  /\ gas_left (frame r) = gas_left Sample.frame2_poor
  /\ stack (frame r) = [10; 11; 99]
  /\ popped (effects r) = [0; 4].
Proof.
  intros r.
  apply (C4_out_of_gas_is_atomic (C:=Sample.collaborators)
           Sample.frame2_poor 2%nat 0 4 [10; 11; 99] 1157).
  - reflexivity.
  - vm_compute. reflexivity.
  - vm_compute. reflexivity.
Defined.

(** C8 on the sample: 4 bytes against 36, and one topic against two. *)
Lemma C8_fee_monotone_witness :
  (exists fee1,
      log_gas_cost (C:=Sample.collaborators) Sample.deadbeef 0 4 2 = Ok fee1
      /\ fee1 <= 1416)
  /\ (exists fee1,
         log_gas_cost (C:=Sample.collaborators) Sample.deadbeef 0 36 1 = Ok fee1
         /\ fee1 <= 1416).
Proof.
  destruct (C8_fee_monotone (C:=Sample.collaborators)
              sample_fees_unsigned sample_growth_fee_monotone
              Sample.deadbeef 0 ltac:(lia)) as [Hsize Htopics].
  split.
  - apply (Hsize 4 36 2%nat 1416); try lia. vm_compute. reflexivity.
  - apply (Htopics 36 1%nat 2%nat 1416); try lia. vm_compute. reflexivity.
Defined.

(** ** Claims about the stack and the log record *)

Lemma popped_app (xs ys : list effect) :
  popped (xs ++ ys) = popped xs ++ popped ys.
Proof.
  induction xs as [|[w| | | |] xs IH]; cbn; rewrite ?IH; reflexivity.
Qed.

Lemma popped_map_EPop (ws : list Z) : popped (map EPop ws) = ws.
Proof. induction ws as [|w ws IH]; cbn; rewrite ?IH; reflexivity. Qed.

Lemma to_be_bytes32_length (w : Z) : length (to_be_bytes32 w) = 32%nat.
Proof. unfold to_be_bytes32. rewrite length_map, length_seq. reflexivity. Qed.

Section RecordClaims.
Context {C : Collaborators}.

(** A successful run, spelled out: the frame held offset, size and the
    topics; the fee was computed and paid; the frame after the call and
    the side effects are those of the normal return. *)
Lemma log_n_ok_inv (evm : Evm) (n : nat) :
  outcome (log_n evm n) = Ok tt ->
  exists start size ts rest fee,
    stack evm = start :: size :: ts ++ rest
    /\ length ts = n
    /\ log_gas_cost (memory evm) start size n = Ok fee
    /\ fee <= gas_left evm
    /\ log_n evm n =
       Run (Ok tt)
           (mkEvm rest (extend_memory (memory evm) start size)
                  (gas_left evm - fee) (current evm)
                  (logs evm ++ [log_record evm start size ts]))
           ([EPop start; EPop size; EDebit fee; EGrow start size;
             ERead start size] ++ map EPop ts
              ++ [EAppend (log_record evm start size ts)]).
Proof.
  intros Hok.
  destruct (log_n_run_complete evm n)
    as [H | w H | start size rest e H He | start size rest f H Hf Hlt
        | start size rest f H Hf Hge Hsh | start size ts rest f H Hl Hf Hge];
    cbn in Hok; try discriminate.
  exists start, size, ts, rest, f. auto.
Qed.

(** A failed run leaves the log sequence as it was. *)
Lemma log_n_raise_logs (evm : Evm) (n : nat) :
  is_ok (outcome (log_n evm n)) = false ->
  logs (frame (log_n evm n)) = logs evm.
Proof.
  intros Hr.
  destruct (log_n_run_complete evm n); cbn in *;
    try reflexivity; try discriminate.
Qed.

(** C1, as amended.  On a frame whose stack holds fewer than
    [2 + num_topics] words [log_n] fails and leaves the log sequence
    unchanged.  With fewer than two words the failure is stack-underflow,
    gas and memory are untouched, and the words that were there have been
    popped.  With both operands present and a fee that is computed and
    affordable, stack-underflow is raised at the missing topic only:
    the fee has been debited, memory has been grown, and the stack has
    been emptied. *)
Theorem C1_underflow_after_partial_effects (evm : Evm) (n : nat) :
  (length (stack evm) < 2 + n)%nat ->
  is_ok (outcome (log_n evm n)) = false
  /\ logs (frame (log_n evm n)) = logs evm
  /\ ((length (stack evm) < 2)%nat ->
      outcome (log_n evm n) = Raise StackUnderflowError
      /\ gas_left (frame (log_n evm n)) = gas_left evm
      /\ memory (frame (log_n evm n)) = memory evm
      /\ stack (frame (log_n evm n)) = []
      /\ popped (effects (log_n evm n)) = stack evm)
  /\ (forall start size rest fee,
         stack evm = start :: size :: rest ->
         log_gas_cost (memory evm) start size n = Ok fee ->
         fee <= gas_left evm ->
         outcome (log_n evm n) = Raise StackUnderflowError
         /\ gas_left (frame (log_n evm n)) = gas_left evm - fee
         /\ memory (frame (log_n evm n))
            = extend_memory (memory evm) start size
         /\ stack (frame (log_n evm n)) = []
         /\ popped (effects (log_n evm n)) = stack evm).
Proof.
  intros Hlen.
  assert (Hfail : is_ok (outcome (log_n evm n)) = false).
  { destruct (is_ok (outcome (log_n evm n))) eqn:E; [|reflexivity].
    destruct (outcome (log_n evm n)) as [[]|] eqn:Ho; [|discriminate].
    apply log_n_ok_inv in Ho.
    destruct Ho as (start & size & ts & rest & fee & Hst & Hl & _).
    rewrite Hst in Hlen. cbn in Hlen. rewrite length_app in Hlen. lia. }
  split; [exact Hfail|]. split; [apply log_n_raise_logs; exact Hfail|].
  destruct evm as [st mem g cur lg]. cbn [stack memory gas_left] in *.
  split.
  - intros Hlt. destruct st as [|w [|w' st]]; cbn in Hlt; try lia;
      cbn; repeat split; reflexivity.
  - intros start size rest fee -> Hfee Hge.
    rewrite log_n_operands, Hfee.
    destruct (Z.ltb_spec g fee); [lia|]. cbv zeta.
    cbn in Hlen.
    rewrite pop_topics_short by (cbn; lia).
    cbn. rewrite popped_map_EPop. repeat split; reflexivity.
Qed.

(** C2.  A successful [log_n] found offset, size and [num_topics] topic
    words on the stack, and extends the log sequence by exactly one
    record, whose topic count is [num_topics] and whose payload has as
    many bytes as the popped size says. *)
Theorem C2_success_appends_one_record
        (Hext : extend_covers_range C) (Hread : read_exact_size C)
        (evm : Evm) (n : nat) :
  Forall is_U256 (stack evm) ->
  outcome (log_n evm n) = Ok tt ->
  exists start size ts rest entry,
    stack evm = start :: size :: ts ++ rest
    /\ length ts = n
    /\ logs (frame (log_n evm n)) = logs evm ++ [entry]
    /\ length (logs (frame (log_n evm n))) = S (length (logs evm))
    /\ length (topics entry) = n
    /\ mem_size (data entry) = size.
Proof.
  intros Hwf Hok. apply log_n_ok_inv in Hok.
  destruct Hok as (start & size & ts & rest & fee & Hst & Hl & _ & _ & ->).
  exists start, size, ts, rest, (log_record evm start size ts).
  cbn [frame logs]. repeat split; auto.
  - rewrite length_app. cbn. lia.
  - cbn. rewrite length_map. exact Hl.
  - rewrite Hst in Hwf.
    apply Forall_cons_iff in Hwf. destruct Hwf as [[Hs0 _] Hwf].
    apply Forall_cons_iff in Hwf. destruct Hwf as [[Hz0 _] _].
    cbn [log_record data]. apply Hread; auto.
    destruct (Z.eq_dec size 0) as [->|Hnz]; [left; reflexivity|right].
    apply Hext; lia.
Qed.

(** C5.  Whatever the frame and however the run ends, [log_n] either
    returns normally, having popped offset, size and all [num_topics]
    topics, having paid the fee, and having appended exactly one record
    whose topic count is [num_topics]; or it raises and the log sequence
    is exactly what it was.  A record is thus never committed by a run
    that failed, and every record committed has the arity of the
    instruction. *)
Theorem C5_no_partial_record (evm : Evm) (n : nat) :
  (outcome (log_n evm n) = Ok tt
   /\ exists start size ts rest fee entry,
       stack evm = start :: size :: ts ++ rest
       /\ length ts = n
       /\ popped (effects (log_n evm n)) = start :: size :: ts
       /\ log_gas_cost (memory evm) start size n = Ok fee
       /\ fee <= gas_left evm
       /\ gas_left (frame (log_n evm n)) = gas_left evm - fee
       /\ logs (frame (log_n evm n)) = logs evm ++ [entry]
       /\ length (topics entry) = n)
  \/ (is_ok (outcome (log_n evm n)) = false
      /\ logs (frame (log_n evm n)) = logs evm).
Proof.
  destruct (outcome (log_n evm n)) as [[]|e] eqn:Ho.
  - left. split; [reflexivity|].
    apply log_n_ok_inv in Ho.
    destruct Ho as (start & size & ts & rest & fee & Hst & Hl & Hf & Hg & ->).
    exists start, size, ts, rest, fee, (log_record evm start size ts).
    cbn [frame logs effects gas_left]. repeat split; auto.
    + cbn. rewrite popped_app, popped_map_EPop. cbn.
      now rewrite app_nil_r.
    + cbn. rewrite length_map. exact Hl.
  - right. split; [reflexivity|].
    apply log_n_raise_logs. rewrite Ho. reflexivity.
Qed.

(** C7.  After a successful [log_n] the topics of the appended record
    are the 32-byte forms of the topic words in the order they were
    popped: the words popped are offset, size and then [ts], and the
    i-th topic of the record is the 32-byte form of the i-th word of
    [ts], for every [i < num_topics]. *)
Theorem C7_topics_in_pop_order (evm : Evm) (n : nat) :
  outcome (log_n evm n) = Ok tt ->
  exists start size ts entry,
    popped (effects (log_n evm n)) = start :: size :: ts
    /\ length ts = n
    /\ logs (frame (log_n evm n)) = logs evm ++ [entry]
    /\ topics entry = map to_be_bytes32 ts
    /\ (forall i, (i < n)%nat ->
                  nth i (topics entry) [] = to_be_bytes32 (nth i ts 0))
    /\ Forall (fun t => length t = 32%nat) (topics entry).
Proof.
  intros Hok. apply log_n_ok_inv in Hok.
  destruct Hok as (start & size & ts & rest & fee & Hst & Hl & _ & _ & ->).
  exists start, size, ts, (log_record evm start size ts).
  cbn [frame logs effects log_record topics]. repeat split; auto.
  - cbn. rewrite popped_app, popped_map_EPop. cbn. now rewrite app_nil_r.
  - intros i Hi.
    rewrite (nth_indep _ [] (to_be_bytes32 0))
      by (rewrite length_map; lia).
    apply map_nth.
  - apply Forall_map, Forall_forall. intros w _. apply to_be_bytes32_length.
Qed.

End RecordClaims.

(** ** Claims about memory and the order of side effects *)

Section OrderClaims.
Context {C : Collaborators}.

(** The side effects of a run, by how far the run got. *)
Lemma log_n_effects_shape (evm : Evm) (n : nat) :
  (is_ok (outcome (log_n evm n)) = false
   /\ frame (log_n evm n) = with_stack evm (stack (frame (log_n evm n)))
   /\ exists ws, (length ws <= 2)%nat /\ effects (log_n evm n) = map EPop ws)
  \/ (exists start size fee ws tail,
         stack evm = start :: size :: ws ++ stack (frame (log_n evm n))
         /\ effects (log_n evm n) =
            [EPop start; EPop size; EDebit fee; EGrow start size;
             ERead start size] ++ map EPop ws ++ tail
         /\ memory (frame (log_n evm n))
            = extend_memory (memory evm) start size
         /\ gas_left (frame (log_n evm n)) = gas_left evm - fee
         /\ ((is_ok (outcome (log_n evm n)) = false /\ tail = []
              /\ (length ws < n)%nat)
             \/ (outcome (log_n evm n) = Ok tt /\ length ws = n
                 /\ exists entry, tail = [EAppend entry]))).
Proof.
  destruct (log_n_run_complete evm n)
    as [H | w H | start size rest e H He | start size rest f H Hf Hlt
        | start size rest f H Hf Hge Hsh | start size ts rest f H Hl Hf Hge];
    cbn [outcome frame effects stack memory gas_left is_ok with_stack].
  - left. repeat split; [symmetry; apply with_stack_same|].
    exists []. split; [cbn; lia | reflexivity].
  - left. repeat split. exists [w]. split; [cbn; lia | reflexivity].
  - left. repeat split. exists [start; size]. split; [cbn; lia | reflexivity].
  - left. repeat split. exists [start; size]. split; [cbn; lia | reflexivity].
  - right. exists start, size, f, rest, []. rewrite !app_nil_r.
    repeat split; auto.
  - right. exists start, size, f, ts, [EAppend (log_record evm start size ts)].
    repeat split; auto. right. repeat split; auto. eexists; reflexivity.
Qed.

Lemma kinds_of_pops (ws : list Z) :
  map kind_of (map EPop ws) = repeat KPop (length ws).
Proof. induction ws as [|w ws IH]; cbn; rewrite ?IH; reflexivity. Qed.

Lemma firstn_repeat_app {A : Type} (x : A) (k n : nat) (tl : list A) :
  (k <= n)%nat -> firstn k (repeat x n ++ tl) = repeat x k.
Proof.
  revert n. induction k as [|k IH]; intros n Hk; [reflexivity|].
  destruct n as [|n]; [lia|]. cbn. rewrite IH by lia. reflexivity.
Qed.

(** An append event can only be the last event of a run of pops
    followed by at most one append. *)
Lemma append_is_last (ws : list Z) (tail pre post : list effect) (e : Log) :
  (tail = [] \/ exists e', tail = [EAppend e']) ->
  map EPop ws ++ tail = pre ++ EAppend e :: post ->
  post = [].
Proof.
  revert pre. induction ws as [|w ws IH]; intros pre Ht Heq.
  - cbn in Heq. destruct Ht as [-> | [e' ->]].
    + destruct pre; discriminate.
    + destruct pre as [|x pre]; cbn in Heq.
      * congruence.
      * injection Heq as _ Heq. destruct pre; discriminate.
  - destruct pre as [|x pre]; cbn in Heq; [discriminate|].
    injection Heq as _ Heq. eapply IH; eauto.
Qed.

(** C9.  In every run of [log_n], failing or not, the side effects form
    an initial segment of the fixed schedule
    pop, pop, debit, grow, read, [num_topics] pops, append,
    and the whole schedule exactly when the run returns normally.
    Hence a growth request is always preceded by the debit, an append is
    always preceded by the growth request and the read and is the last
    effect; memory differs from what it was only in runs that debited
    the fee, and the log differs only in runs that grew memory. *)
Theorem C9_effects_in_order (evm : Evm) (n : nat) :
  (exists k, map kind_of (effects (log_n evm n)) = firstn k (schedule n))
  /\ (outcome (log_n evm n) = Ok tt <->
      map kind_of (effects (log_n evm n)) = schedule n)
  /\ (forall pre a b post,
         effects (log_n evm n) = pre ++ EGrow a b :: post ->
         exists fee, In (EDebit fee) pre)
  /\ (forall pre entry post,
         effects (log_n evm n) = pre ++ EAppend entry :: post ->
         (exists a b, In (EGrow a b) pre)
         /\ (exists a b, In (ERead a b) pre)
         /\ post = [])
  /\ (memory (frame (log_n evm n)) <> memory evm ->
      exists fee,
        In (EDebit fee) (effects (log_n evm n))
        /\ gas_left (frame (log_n evm n)) = gas_left evm - fee)
  /\ (logs (frame (log_n evm n)) <> logs evm ->
      exists a b,
        In (EGrow a b) (effects (log_n evm n))
        /\ memory (frame (log_n evm n)) = extend_memory (memory evm) a b).
Proof.
  destruct (log_n_effects_shape evm n)
    as [(Hfail & Hfr & ws & Hws & Heff)
       | (start & size & fee & ws & tail & Hst & Heff & Hmem & Hgas & Hend)].
  - (* the run stopped before the debit *)
    rewrite Heff.
    assert (Hk : map kind_of (map EPop ws) = firstn (length ws) (schedule n)).
    { rewrite kinds_of_pops. unfold schedule.
      destruct ws as [|w1 [|w2 [|w3 ws]]]; cbn in Hws |- *;
        try reflexivity; lia. }
    split; [eexists; exact Hk|].
    split.
    { split.
      - intros Hok. rewrite Hok in Hfail. discriminate.
      - intros Hs. exfalso. unfold schedule in Hs.
        destruct ws as [|w1 [|w2 [|w3 ws]]]; cbn in Hws, Hs;
          try discriminate; lia. }
    split.
    { intros pre a b post Hd. exfalso.
      apply (not_in_map_EPop (EGrow a b) ws); [discriminate|].
      rewrite Hd. apply in_elt. }
    split.
    { intros pre entry post Hd. exfalso.
      apply (not_in_map_EPop (EAppend entry) ws); [discriminate|].
      rewrite Hd. apply in_elt. }
    split.
    { intros Hne. exfalso. apply Hne. rewrite Hfr. reflexivity. }
    { intros Hne. exfalso. apply Hne. rewrite Hfr. reflexivity. }
  - (* the run got past the debit, the growth request and the read *)
    rewrite Heff.
    assert (Htail : tail = [] \/ exists e', tail = [EAppend e']).
    { destruct Hend as [(_ & -> & _) | (_ & _ & e' & ->)];
        [left; reflexivity | right; eexists; reflexivity]. }
    split.
    { destruct Hend as [(_ & -> & Hlt) | (_ & Hl & e' & ->)].
      - exists (5 + length ws)%nat.
        rewrite app_nil_r. cbn [app map kind_of]. rewrite kinds_of_pops.
        unfold schedule. cbn [app firstn Nat.add].
        rewrite firstn_repeat_app by lia. reflexivity.
      - exists (length (schedule n)).
        rewrite firstn_all. cbn [app map kind_of]. rewrite map_app.
        rewrite kinds_of_pops, Hl. reflexivity. }
    split.
    { destruct Hend as [(Hf & -> & Hlt) | (Hok & Hl & e' & ->)].
      - split.
        + intros Hok. rewrite Hok in Hf. discriminate.
        + intros Hs. exfalso. apply (f_equal (@length _)) in Hs.
          unfold schedule in Hs.
          rewrite length_map, !length_app, length_map, repeat_length in Hs.
          cbn in Hs. lia.
      - split; [intros _|intros _; exact Hok].
        cbn [app map kind_of]. rewrite map_app, kinds_of_pops, Hl.
        reflexivity. }
    split.
    { intros pre a b post Hd.
      destruct pre as [|x1 [|x2 [|x3 pre]]]; cbn in Hd; try discriminate.
      injection Hd as _ _ <- _. exists fee. cbn. auto. }
    split.
    { intros pre entry post Hd.
      destruct pre as [|x1 [|x2 [|x3 [|x4 [|x5 pre]]]]]; cbn in Hd;
        try discriminate.
      injection Hd as _ _ _ <- <- Hd.
      split; [|split].
      - exists start, size. cbn. do 3 right. left. reflexivity.
      - exists start, size. cbn. do 4 right. left. reflexivity.
      - eapply append_is_last; eauto. }
    split.
    { intros _. exists fee. split; [cbn; auto | exact Hgas]. }
    { intros _. exists start, size. split; [cbn; auto | exact Hmem]. }
Qed.





(** C10.  Each of [log0] .. [log4] is [log_n] with the number of topics
    fixed: on every frame it yields the same outcome, the same frame and
    the same side effects as [log_n] called with that number. *)
Theorem C10_variants_specialise_log_n (evm : Evm) :
  log0 evm = log_n evm 0
  /\ log1 evm = log_n evm 1
  /\ log2 evm = log_n evm 2
  /\ log3 evm = log_n evm 3
  /\ log4 evm = log_n evm 4.
Proof. repeat split; reflexivity. Qed.

End OrderClaims.

(** ** The claims on the sample frames *)

Lemma sample_words_are_U256 : Forall is_U256 (stack Sample.frame2).
Proof.
  repeat constructor; apply Z.leb_le; reflexivity.
Qed.

(** C1 as the spec words it fails on a frame with a single word:
    the call raises stack-underflow, but the word has been popped. *)
Lemma C1_underflow_counterexample :
  ~ underflow_before_any_mutation (C:=Sample.collaborators)
      Sample.frame_one_word 0.
Proof.
  unfold underflow_before_any_mutation. intros H.
  destruct H as (_ & Hstack & _); [cbn; lia|].
  vm_compute in Hstack. discriminate Hstack.
Qed.

(** With offset and size present but no topic word, the fee is debited
    before the underflow is signalled. *)
Lemma log_n_underflow_after_debit :
  outcome (log_n (C:=Sample.collaborators) Sample.frame_no_topic 1)
  = Raise StackUnderflowError
  /\ gas_left (frame (log_n (C:=Sample.collaborators) Sample.frame_no_topic 1))
     = 250
  /\ gas_left Sample.frame_no_topic = 1000.
Proof. vm_compute. repeat split; reflexivity. Qed.

(** C1 as amended, on the frame with offset and size but no topic. *)
Lemma C1_underflow_after_partial_effects_witness :
  let r := log_n (C:=Sample.collaborators) Sample.frame_no_topic 1 in
  is_ok (outcome r) = false
  /\ logs (frame r) = logs Sample.frame_no_topic
  /\ outcome r = Raise StackUnderflowError
  /\ gas_left (frame r) = gas_left Sample.frame_no_topic - 750
  /\ memory (frame r) = Sample.grow (memory Sample.frame_no_topic) 0 0
  /\ stack (frame r) = []
  /\ popped (effects r) = stack Sample.frame_no_topic.
Proof.
  intros r.
  destruct (C1_underflow_after_partial_effects (C:=Sample.collaborators)
              Sample.frame_no_topic 1%nat ltac:(cbn; lia))
    as (H1 & H2 & _ & H4).
  split; [exact H1 | split; [exact H2 |]].
  apply (H4 0 0 [] 750).
  - reflexivity.
  - vm_compute. reflexivity.
  - vm_compute. discriminate.
Defined.

(** C2 on the sample: offset 0, size 4, two topics. *)
Lemma C2_success_appends_one_record_witness :
  let r := log_n (C:=Sample.collaborators) Sample.frame2 2 in
  exists start size ts rest entry,
    stack Sample.frame2 = start :: size :: ts ++ rest
    /\ length ts = 2%nat
    /\ logs (frame r) = logs Sample.frame2 ++ [entry]
    /\ length (logs (frame r)) = S (length (logs Sample.frame2))
    /\ length (topics entry) = 2%nat
    /\ mem_size (data entry) = size.
Proof.
  intros r.
  apply (C2_success_appends_one_record (C:=Sample.collaborators)
           sample_extend_covers_range sample_read_exact_size
           Sample.frame2 2%nat).
  - exact sample_words_are_U256.
  - vm_compute. reflexivity.
Defined.


(** C7 on the sample: the topics 10 and 11, popped in that order. *)
Lemma C7_topics_in_pop_order_witness :
  exists start size ts entry,
    popped (effects (log_n (C:=Sample.collaborators) Sample.frame2 2))
    = start :: size :: ts
    /\ length ts = 2%nat
    /\ logs (frame (log_n (C:=Sample.collaborators) Sample.frame2 2))
       = logs Sample.frame2 ++ [entry]
    /\ topics entry = map to_be_bytes32 ts
    /\ (forall i, (i < 2)%nat ->
                  nth i (topics entry) [] = to_be_bytes32 (nth i ts 0))
    /\ Forall (fun t => length t = 32%nat) (topics entry).
Proof.
  apply (C7_topics_in_pop_order (C:=Sample.collaborators) Sample.frame2 2%nat).
  vm_compute. reflexivity.
Defined.

(** The whole run on the sample: one record with the contract's address,
    the topics 10 and 11 in pop order, and the four bytes of payload;
    1157 gas paid; the unrelated word left on the stack. *)
Example log2_on_sample :
  log2 (C:=Sample.collaborators) Sample.frame2 =
  let entry := mkLog Sample.contract [to_be_bytes32 10; to_be_bytes32 11]
                     Sample.deadbeef in
  Run (Ok tt)
      (mkEvm [99] Sample.deadbeef (5000 - 1157) Sample.contract [entry])
      [EPop 0; EPop 4; EDebit 1157; EGrow 0 4; ERead 0 4; EPop 10; EPop 11;
       EAppend entry].
Proof. vm_compute. reflexivity. Qed.

(** An empty payload and no topic cost the base fee only. *)
Example log0_empty_payload :
  log0 (C:=Sample.collaborators) (mkEvm [0; 0] [] 1000 Sample.contract []) =
  Run (Ok tt)
      (mkEvm [] [] (1000 - 375) Sample.contract [mkLog Sample.contract [] []])
      [EPop 0; EPop 0; EDebit 375; EGrow 0 0; ERead 0 0;
       EAppend (mkLog Sample.contract [] [])].
Proof. vm_compute. reflexivity. Qed.

(** An offset at the largest word with a size of one: the range ends
    at [2 ^ 256].  Had the end wrapped to 0 the range would count as
    covered and the call would cost the base and data fees only; instead
    the fee for the true range is out of reach and the call fails with
    neither memory nor the log touched. *)
Example log0_offset_at_largest_word :
  let evm := mkEvm [U256_MAX_VALUE; 1] Sample.deadbeef U256_MAX_VALUE
                   Sample.contract [] in
  is_ok (outcome (log_n (C:=Sample.collaborators) evm 0)) = false
  /\ memory (frame (log_n (C:=Sample.collaborators) evm 0)) = Sample.deadbeef
  /\ logs (frame (log_n (C:=Sample.collaborators) evm 0)) = []
  /\ (U256_MAX_VALUE + 1) mod 2 ^ 256 = 0.
Proof. vm_compute. repeat split; reflexivity. Qed.

(** C9 on the sample frame whose memory grows: the debit sits before the
    growth request, the request and the read before the append, and the
    append is last. *)
Lemma C9_effects_in_order_witness :
  let r := log_n (C:=Sample.collaborators) Sample.frame_growing 1 in
  (exists k, map kind_of (effects r) = firstn k (schedule 1))
  /\ map kind_of (effects r) = schedule 1
  /\ (exists fee, In (EDebit fee) [EPop 0; EPop 36; EDebit 1041])
  /\ ((exists a b,
          In (EGrow a b)
             [EPop 0; EPop 36; EDebit 1041; EGrow 0 36; ERead 0 36; EPop 10])
      /\ (exists a b,
             In (ERead a b)
                [EPop 0; EPop 36; EDebit 1041; EGrow 0 36; ERead 0 36; EPop 10])
      /\ @nil effect = [])
  /\ (exists fee,
         In (EDebit fee) (effects r)
         /\ gas_left (frame r) = gas_left Sample.frame_growing - fee)
  /\ (exists a b,
         In (EGrow a b) (effects r)
         /\ memory (frame r)
            = Sample.grow (memory Sample.frame_growing) a b).
Proof.
  intros r.
  destruct (C9_effects_in_order (C:=Sample.collaborators)
              Sample.frame_growing 1%nat)
    as (Hprefix & Hfull & Hgrow & Happend & Hmem & Hlog).
  split; [exact Hprefix|].
  split; [apply Hfull; vm_compute; reflexivity|].
  split; [apply (Hgrow _ 0 36 [ERead 0 36; EPop 10;
                               EAppend (log_record (C:=Sample.collaborators)
                                          Sample.frame_growing 0 36 [10])]);
          vm_compute; reflexivity|].
  split; [apply (Happend _ (log_record (C:=Sample.collaborators)
                              Sample.frame_growing 0 36 [10]) []);
          vm_compute; reflexivity|].
  split; [apply Hmem; vm_compute; discriminate|].
  apply Hlog. vm_compute. discriminate.
Defined.

(** * Further properties of [log_n] *)

Lemma sample_growth_fee_unsigned : growth_fee_unsigned Sample.collaborators.
Proof.
  intros mem start size Hstart Hsize. cbn. unfold Sample.growth_fee.
  destruct (Z.eqb_spec size 0); cbn [orb]; [lia|].
  destruct (Z.leb_spec (start + size) (mem_size mem)); [lia|].
  assert (Hm : 0 <= mem_size mem) by (unfold mem_size; lia).
  pose proof (sample_memory_cost_monotone (mem_size mem) (start + size)
                Hm ltac:(lia)). lia.
Qed.

Section Further.
Context {C : Collaborators}.

(** The normal return, as an equation: both operands and enough topic
    words on the stack, a fee that is computed and affordable. *)
Lemma log_n_success (evm : Evm) (n : nat) (start size : Z) (rest : list Z)
      (fee : Z) :
  stack evm = start :: size :: rest ->
  (n <= length rest)%nat ->
  log_gas_cost (memory evm) start size n = Ok fee ->
  fee <= gas_left evm ->
  log_n evm n =
  Run (Ok tt)
      (mkEvm (skipn n rest) (extend_memory (memory evm) start size)
             (gas_left evm - fee) (current evm)
             (logs evm ++ [log_record evm start size (firstn n rest)]))
      ([EPop start; EPop size; EDebit fee; EGrow start size;
        ERead start size] ++ map EPop (firstn n rest)
         ++ [EAppend (log_record evm start size (firstn n rest))]).
Proof.
  intros Hst Hn Hfee Hge.
  destruct evm as [st mem g cur lg]. cbn in Hst, Hfee, Hge. subst st.
  rewrite log_n_operands, Hfee.
  destruct (Z.ltb_spec g fee); [lia|]. cbv zeta.
  rewrite pop_topics_enough by exact Hn. reflexivity.
Qed.

(** X1.  In every run the words popped, in pop order, followed by the
    stack left behind, are the stack before the call: [log_n] only
    removes words from the top, never pushes and never reorders.  It pops
    at most [2 + num_topics] words, and exactly that many when it returns
    normally. *)
Theorem log_n_stack_discipline (evm : Evm) (n : nat) :
  stack evm = popped (effects (log_n evm n)) ++ stack (frame (log_n evm n))
  /\ (length (popped (effects (log_n evm n))) <= 2 + n)%nat
  /\ (outcome (log_n evm n) = Ok tt ->
      length (popped (effects (log_n evm n))) = (2 + n)%nat
      /\ stack (frame (log_n evm n)) = skipn (2 + n) (stack evm)).
Proof.
  destruct (log_n_run_complete evm n)
    as [H | w H | start size rest e H He | start size rest f H Hf Hlt
        | start size rest f H Hf Hge Hsh | start size ts rest f H Hl Hf Hge];
    cbn [outcome frame effects stack with_stack].
  - rewrite H. cbn. repeat split; try lia. discriminate.
  - rewrite H. cbn. repeat split; try lia; discriminate.
  - rewrite H. cbn. repeat split; try lia; discriminate.
  - rewrite H. cbn. repeat split; try lia; discriminate.
  - rewrite H. cbn. rewrite popped_map_EPop, app_nil_r. cbn.
    repeat split; try lia; discriminate.
  - rewrite H. cbn. rewrite popped_app, popped_map_EPop. cbn.
    rewrite app_nil_r.
    repeat split; try lia.
    rewrite <- Hl, skipn_app, skipn_all, Nat.sub_diag. reflexivity.
Qed.

(** X2.  [log_n] returns normally exactly when the stack holds offset,
    size and at least [num_topics] further words, the fee is computed
    without overflow, and the gas left covers it. *)
Theorem log_n_ok_iff (evm : Evm) (n : nat) :
  outcome (log_n evm n) = Ok tt <->
  exists start size rest fee,
    stack evm = start :: size :: rest
    /\ (n <= length rest)%nat
    /\ log_gas_cost (memory evm) start size n = Ok fee
    /\ fee <= gas_left evm.
Proof.
  split.
  - intros Hok. apply log_n_ok_inv in Hok.
    destruct Hok as (start & size & ts & rest & fee & Hst & Hl & Hf & Hg & _).
    exists start, size, (ts ++ rest), fee. repeat split; auto.
    rewrite length_app. lia.
  - intros (start & size & rest & fee & Hst & Hn & Hf & Hg).
    rewrite (log_n_success evm n start size rest fee); auto.
Qed.

(** X3.  The record a successful [log_n] appends carries the address of
    the executing contract and the bytes read from memory after the
    growth request, at the popped offset and size; the frame's contract
    address is the same after every run, failing or not. *)
Theorem log_n_record_content (evm : Evm) (n : nat) :
  current (frame (log_n evm n)) = current evm
  /\ (outcome (log_n evm n) = Ok tt ->
      exists start size rest entry,
        stack evm = start :: size :: rest
        /\ logs (frame (log_n evm n)) = logs evm ++ [entry]
        /\ address entry = current evm
        /\ memory (frame (log_n evm n))
           = extend_memory (memory evm) start size
        /\ data entry
           = memory_read_bytes (memory (frame (log_n evm n))) start size).
Proof.
  split.
  - destruct (log_n_run_complete evm n); reflexivity.
  - intros Hok. apply log_n_ok_inv in Hok.
    destruct Hok as (start & size & ts & rest & fee & Hst & Hl & _ & _ & ->).
    exists start, size, (ts ++ rest), (log_record evm start size ts).
    cbn. repeat split; auto.
Qed.

(** X4.  Gas is only ever taken: with unsigned fee terms and operands
    that are machine words, the gas left after any run is at most the
    gas left before; and whatever the fee terms, a run that starts with
    non-negative gas never leaves the ledger negative. *)
Theorem log_n_gas_bounds
        (Hu : fees_unsigned C) (Hg : growth_fee_unsigned C)
        (evm : Evm) (n : nat) :
  Forall is_U256 (stack evm) ->
  0 <= gas_left evm ->
  0 <= gas_left (frame (log_n evm n)) <= gas_left evm.
Proof.
  intros Hwf Hgas.
  assert (Hfee : forall start size rest fee,
             stack evm = start :: size :: rest ->
             log_gas_cost (memory evm) start size n = Ok fee -> 0 <= fee).
  { intros start size rest fee Hst Hf. rewrite Hst in Hwf.
    apply Forall_cons_iff in Hwf. destruct Hwf as [[Hs0 _] Hwf].
    apply Forall_cons_iff in Hwf. destruct Hwf as [[Hz0 _] _].
    apply log_gas_cost_ok in Hf. destruct Hf as (-> & _).
    destruct Hu as (Hb & Hd & Ht).
    pose proof (Hg (memory evm) start size Hs0 Hz0).
    unfold fee_sum. nia. }
  destruct (log_n_run_complete evm n)
    as [H | w H | start size rest e H He | start size rest f H Hf Hlt
        | start size rest f H Hf Hge Hsh | start size ts rest f H Hl Hf Hge];
    cbn [frame gas_left with_stack]; try lia.
  - pose proof (Hfee _ _ _ _ H Hf). lia.
  - pose proof (Hfee _ _ _ _ H Hf). lia.
Qed.

(** X5.  [StackUnderflowError] is raised in exactly two situations: the
    stack holds fewer than two words; or it holds offset and size, the
    fee is computed and paid, and fewer than [num_topics] words remain.
    A short stack whose fee cannot be paid does not raise it. *)
Theorem log_n_stack_underflow_iff (evm : Evm) (n : nat) :
  outcome (log_n evm n) = Raise StackUnderflowError <->
  (length (stack evm) < 2)%nat
  \/ exists start size rest fee,
      stack evm = start :: size :: rest
      /\ log_gas_cost (memory evm) start size n = Ok fee
      /\ fee <= gas_left evm
      /\ (length rest < n)%nat.
Proof.
  split.
  - destruct (log_n_run_complete evm n)
      as [H | w H | start size rest e H He | start size rest f H Hf Hlt
          | start size rest f H Hf Hge Hsh | start size ts rest f H Hl Hf Hge];
      cbn [outcome]; intros Ho.
    + left. rewrite H. cbn. lia.
    + left. rewrite H. cbn. lia.
    + apply log_gas_cost_raise in He. subst e. discriminate.
    + discriminate.
    + right. exists start, size, rest, f. auto.
    + discriminate.
  - intros [Hlen | (start & size & rest & fee & Hst & Hf & Hge & Hsh)];
      destruct evm as [st mem g cur lg]; cbn [stack memory gas_left] in *.
    + destruct st as [|w [|w' st]]; cbn in Hlen; try lia; reflexivity.
    + subst st. rewrite log_n_operands, Hf.
      destruct (Z.ltb_spec g fee); [lia|]. cbv zeta.
      rewrite pop_topics_short by (cbn; lia). reflexivity.
Qed.

(** X6.  [OutOfGasError] is raised exactly when the stack holds offset
    and size, the fee is computed, and the gas left is less than the fee,
    however many words lie below the two operands. *)
Theorem log_n_out_of_gas_iff (evm : Evm) (n : nat) :
  outcome (log_n evm n) = Raise OutOfGasError <->
  exists start size rest fee,
    stack evm = start :: size :: rest
    /\ log_gas_cost (memory evm) start size n = Ok fee
    /\ gas_left evm < fee.
Proof.
  split.
  - destruct (log_n_run_complete evm n)
      as [H | w H | start size rest e H He | start size rest f H Hf Hlt
          | start size rest f H Hf Hge Hsh | start size ts rest f H Hl Hf Hge];
      cbn [outcome]; intros Ho; try discriminate.
    + apply log_gas_cost_raise in He. subst e. discriminate.
    + exists start, size, rest, f. auto.
  - intros (start & size & rest & fee & Hst & Hf & Hlt).
    destruct evm as [st mem g cur lg]; cbn [stack memory gas_left] in *.
    subst st. rewrite log_n_operands, Hf.
    destruct (Z.ltb_spec g fee); [reflexivity | lia].
Qed.

End Further.

Section Composition.
Context {C : Collaborators}.

(** X7.  Words lying deeper in the stack do not matter: unless the run
    raises [StackUnderflowError], the same call on a frame with further
    words beneath the stack has the same outcome and the same side
    effects, and leaves the same frame with those words still beneath. *)
Theorem log_n_deeper_stack (evm : Evm) (n : nat) (extra : list Z) :
  outcome (log_n evm n) <> Raise StackUnderflowError ->
  log_n (with_stack evm (stack evm ++ extra)) n =
  Run (outcome (log_n evm n))
      (with_stack (frame (log_n evm n))
                  (stack (frame (log_n evm n)) ++ extra))
      (effects (log_n evm n)).
Proof.
  destruct evm as [st mem g cur lg].
  destruct st as [|start [|size st]]; intros Hne;
    try (exfalso; apply Hne; reflexivity).
  unfold with_stack at 1. cbn [stack memory gas_left current logs app].
  rewrite log_n_operands in Hne. rewrite !log_n_operands.
  destruct (log_gas_cost mem start size n) as [fee|e]; [|reflexivity].
  destruct (g <? fee); [reflexivity|]. cbv zeta in Hne |- *.
  destruct (le_lt_dec n (length st)) as [Hen|Hsh].
  - rewrite (pop_topics_enough n _ (mkEvm (st ++ extra) _ _ _ _))
      by (cbn; rewrite length_app; lia).
    rewrite (pop_topics_enough n _ (mkEvm st _ _ _ _)) by exact Hen.
    cbn.
    replace (n - length st)%nat with 0%nat by lia.
    rewrite firstn_app, skipn_app.
    replace (n - length st)%nat with 0%nat by lia.
    cbn. rewrite app_nil_r. reflexivity.
  - exfalso. apply Hne.
    rewrite pop_topics_short by exact Hsh. reflexivity.
Qed.

(** X8.  The records already in the log sequence play no part: with any
    other log sequence in the frame, [log_n] has the same outcome and
    side effects, leaves the same stack, memory and gas, and adds the
    same records (none or one) at the end of that sequence. *)
Theorem log_n_ignores_existing_logs (evm : Evm) (n : nat) (lg' : list Log) :
  outcome (log_n (with_logs evm lg') n) = outcome (log_n evm n)
  /\ effects (log_n (with_logs evm lg') n) = effects (log_n evm n)
  /\ stack (frame (log_n (with_logs evm lg') n))
     = stack (frame (log_n evm n))
  /\ memory (frame (log_n (with_logs evm lg') n))
     = memory (frame (log_n evm n))
  /\ gas_left (frame (log_n (with_logs evm lg') n))
     = gas_left (frame (log_n evm n))
  /\ exists added,
      (length added <= 1)%nat
      /\ logs (frame (log_n evm n)) = logs evm ++ added
      /\ logs (frame (log_n (with_logs evm lg') n)) = lg' ++ added.
Proof.
  destruct evm as [st mem g cur lg].
  unfold with_logs. cbn [stack memory gas_left current logs].
  destruct st as [|start [|size st]].
  - cbn. repeat split. exists []. rewrite !app_nil_r. auto.
  - cbn. repeat split. exists []. rewrite !app_nil_r. auto.
  - rewrite !log_n_operands.
    destruct (log_gas_cost mem start size n) as [fee|e].
    + destruct (g <? fee).
      * cbn. repeat split. exists []. rewrite !app_nil_r. auto.
      * cbv zeta. destruct (le_lt_dec n (length st)) as [Hen|Hsh].
        -- rewrite !pop_topics_enough by exact Hen.
           cbn. repeat split.
           eexists [_]. cbn. split; [lia|]. split; reflexivity.
        -- rewrite !pop_topics_short by exact Hsh.
           cbn. repeat split. exists []. rewrite !app_nil_r. auto.
    + cbn. repeat split. exists []. rewrite !app_nil_r. auto.
Qed.

(** X9.  On one and the same frame, if the call with [n2] topics returns
    normally then so does the call with any smaller number [n1] of
    topics (the per-topic fee being unsigned): it grows memory the same
    way and costs no more gas, and its record has the same address and
    payload and, as topics, the first [n1] topics of the other record. *)
Theorem log_n_fewer_topics
        (Hu : fees_unsigned C) (evm : Evm) (n1 n2 : nat) :
  (n1 <= n2)%nat ->
  outcome (log_n evm n2) = Ok tt ->
  exists e1 e2,
    outcome (log_n evm n1) = Ok tt
    /\ logs (frame (log_n evm n1)) = logs evm ++ [e1]
    /\ logs (frame (log_n evm n2)) = logs evm ++ [e2]
    /\ topics e1 = firstn n1 (topics e2)
    /\ data e1 = data e2
    /\ address e1 = address e2
    /\ memory (frame (log_n evm n1)) = memory (frame (log_n evm n2))
    /\ gas_left (frame (log_n evm n2)) <= gas_left (frame (log_n evm n1)).
Proof.
  intros Hn Hok. apply log_n_ok_inv in Hok.
  destruct Hok as (start & size & ts & rest & fee2 & Hst & Hl & Hf2 & Hg2 & E2).
  destruct (log_gas_cost_monotone Hu (memory evm) start size size n1 n2 fee2)
    as (fee1 & Hf1 & Hle); auto; try lia.
  assert (Hlen : (n1 <= length (ts ++ rest))%nat)
    by (rewrite length_app; lia).
  rewrite (log_n_success evm n1 start size (ts ++ rest) fee1 Hst Hlen Hf1)
    by lia.
  rewrite E2.
  exists (log_record evm start size (firstn n1 (ts ++ rest))),
         (log_record evm start size ts).
  cbn. repeat split; try lia.
  rewrite firstn_app. replace (n1 - length ts)%nat with 0%nat by lia.
  cbn. rewrite app_nil_r. apply eq_sym, firstn_map.
Qed.

(** X10.  Two calls in a row that both return normally: each pops its
    own offset, size and topics from the top of the stack, the first
    call's words above the second's; the two records are appended in
    call order after the records already there, each with the topics and
    the payload of its own call; the first fee is the four-term sum for
    the first call's operands on the memory before it, the second the sum
    for the second call's operands on memory as the first call left it;
    both are debited, and memory ends up grown for the first range and
    then for the second. *)
Theorem log_n_twice (evm : Evm) (n1 n2 : nat) :
  outcome (log_n evm n1) = Ok tt ->
  outcome (log_n (frame (log_n evm n1)) n2) = Ok tt ->
  exists start1 size1 ts1 start2 size2 ts2 e1 e2,
    popped (effects (log_n evm n1)) = start1 :: size1 :: ts1
    /\ popped (effects (log_n (frame (log_n evm n1)) n2))
       = start2 :: size2 :: ts2
    /\ length ts1 = n1
    /\ length ts2 = n2
    /\ stack evm
       = (start1 :: size1 :: ts1) ++ (start2 :: size2 :: ts2)
         ++ stack (frame (log_n (frame (log_n evm n1)) n2))
    /\ logs (frame (log_n (frame (log_n evm n1)) n2)) = logs evm ++ [e1; e2]
    /\ topics e1 = map to_be_bytes32 ts1
    /\ topics e2 = map to_be_bytes32 ts2
    /\ memory (frame (log_n evm n1))
       = extend_memory (memory evm) start1 size1
    /\ memory (frame (log_n (frame (log_n evm n1)) n2))
       = extend_memory (memory (frame (log_n evm n1))) start2 size2
    /\ data e1
       = memory_read_bytes (memory (frame (log_n evm n1))) start1 size1
    /\ data e2
       = memory_read_bytes (memory (frame (log_n (frame (log_n evm n1)) n2)))
                           start2 size2
    /\ In (EDebit (fee_sum (memory evm) start1 size1 n1))
          (effects (log_n evm n1))
    /\ In (EDebit (fee_sum (memory (frame (log_n evm n1))) start2 size2 n2))
          (effects (log_n (frame (log_n evm n1)) n2))
    /\ gas_left (frame (log_n (frame (log_n evm n1)) n2))
       = gas_left evm
         - fee_sum (memory evm) start1 size1 n1
         - fee_sum (memory (frame (log_n evm n1))) start2 size2 n2.
Proof.
  intros Hok1 Hok2.
  apply log_n_ok_inv in Hok1.
  destruct Hok1
    as (start1 & size1 & ts1 & rest1 & fee1 & Hst1 & Hl1 & Hf1 & Hg1 & E1).
  rewrite E1 in Hok2 |- *. cbn [frame] in Hok2 |- *.
  apply log_n_ok_inv in Hok2.
  destruct Hok2
    as (start2 & size2 & ts2 & rest2 & fee2 & Hst2 & Hl2 & Hf2 & Hg2 & E2).
  cbn [stack memory gas_left current logs] in Hst2, Hf2, Hg2, E2.
  rewrite E2. cbn [frame logs effects stack memory gas_left].
  apply log_gas_cost_ok in Hf1. destruct Hf1 as (-> & _).
  apply log_gas_cost_ok in Hf2. destruct Hf2 as (-> & _).
  exists start1, size1, ts1, start2, size2, ts2.
  eexists _, _.
  assert (Hp : forall a b f ws e,
             popped ([EPop a; EPop b; EDebit f; EGrow a b; ERead a b]
                       ++ map EPop ws ++ [EAppend e]) = a :: b :: ws).
  { intros. cbn. rewrite popped_app, popped_map_EPop. cbn.
    now rewrite app_nil_r. }
  rewrite !Hp.
  split; [reflexivity|]. split; [reflexivity|].
  split; [exact Hl1|]. split; [exact Hl2|].
  split; [rewrite Hst1, Hst2; reflexivity|].
  split; [rewrite <- app_assoc; reflexivity|].
  split; [reflexivity|]. split; [reflexivity|].
  split; [reflexivity|]. split; [reflexivity|].
  split; [reflexivity|]. split; [reflexivity|].
  split; [cbn; auto|]. split; [cbn; auto|]. reflexivity.
Qed.

(** The number of words a successful call takes off the stack. *)
Lemma log_n_ok_stack_length (evm : Evm) (n : nat) :
  outcome (log_n evm n) = Ok tt ->
  length (stack evm) = (length (stack (frame (log_n evm n))) + 2 + n)%nat.
Proof.
  intros Hok. apply log_n_ok_inv in Hok.
  destruct Hok as (start & size & ts & rest & fee & Hst & Hl & _ & _ & ->).
  rewrite Hst. cbn. rewrite length_app. lia.
Qed.

(** X11.  A successful LOG0, LOG1, LOG2, LOG3 or LOG4 shortens the stack
    by exactly 2, 3, 4, 5 or 6 words. *)
Theorem log_variants_stack_delta (evm : Evm) :
  (outcome (log0 evm) = Ok tt ->
   length (stack evm) = (length (stack (frame (log0 evm))) + 2)%nat)
  /\ (outcome (log1 evm) = Ok tt ->
      length (stack evm) = (length (stack (frame (log1 evm))) + 3)%nat)
  /\ (outcome (log2 evm) = Ok tt ->
      length (stack evm) = (length (stack (frame (log2 evm))) + 4)%nat)
  /\ (outcome (log3 evm) = Ok tt ->
      length (stack evm) = (length (stack (frame (log3 evm))) + 5)%nat)
  /\ (outcome (log4 evm) = Ok tt ->
      length (stack evm) = (length (stack (frame (log4 evm))) + 6)%nat).
Proof.
  unfold log0, log1, log2, log3, log4, partial.
  repeat split; intros Hok; apply log_n_ok_stack_length in Hok; lia.
Qed.

End Composition.

(** ** The further properties on the sample frames *)

(** X1 on the sample: four words popped, the unrelated word left. *)
Lemma log_n_stack_discipline_witness :
  let r := log_n (C:=Sample.collaborators) Sample.frame2 2 in
  length (popped (effects r)) = 4%nat
  /\ stack (frame r) = skipn 4 (stack Sample.frame2).
Proof.
  intros r.
  destruct (log_n_stack_discipline (C:=Sample.collaborators)
              Sample.frame2 2%nat) as (_ & _ & Hok).
  apply Hok. vm_compute. reflexivity.
Defined.

(** X3 on the sample. *)
Lemma log_n_record_content_witness :
  let r := log_n (C:=Sample.collaborators) Sample.frame2 2 in
  exists start size rest entry,
    stack Sample.frame2 = start :: size :: rest
    /\ logs (frame r) = logs Sample.frame2 ++ [entry]
    /\ address entry = current Sample.frame2
    /\ memory (frame r) = Sample.grow (memory Sample.frame2) start size
    /\ data entry = Sample.read (memory (frame r)) start size.
Proof.
  intros r.
  destruct (log_n_record_content (C:=Sample.collaborators)
              Sample.frame2 2%nat) as (_ & Hok).
  apply Hok. vm_compute. reflexivity.
Defined.

(** X4 on the sample: 5000 gas before, at most that and at least zero
    after. *)
Lemma log_n_gas_bounds_witness :
  0 <= gas_left (frame (log_n (C:=Sample.collaborators) Sample.frame2 2))
    <= gas_left Sample.frame2.
Proof.
  apply (log_n_gas_bounds (C:=Sample.collaborators)
           sample_fees_unsigned sample_growth_fee_unsigned
           Sample.frame2 2%nat).
  - exact sample_words_are_U256.
  - vm_compute. discriminate.
Defined.

(** X7 on the sample: two further words beneath the stack. *)
Lemma log_n_deeper_stack_witness :
  let r := log_n (C:=Sample.collaborators) Sample.frame2 2 in
  log_n (C:=Sample.collaborators)
        (with_stack Sample.frame2 (stack Sample.frame2 ++ [1; 2])) 2 =
  Run (outcome r) (with_stack (frame r) (stack (frame r) ++ [1; 2]))
      (effects r).
Proof.
  intros r.
  apply (log_n_deeper_stack (C:=Sample.collaborators)
           Sample.frame2 2%nat [1; 2]).
  vm_compute. discriminate.
Defined.

(** X9 on the sample: one topic against two. *)
Lemma log_n_fewer_topics_witness :
  let r1 := log_n (C:=Sample.collaborators) Sample.frame2 1 in
  let r2 := log_n (C:=Sample.collaborators) Sample.frame2 2 in
  exists e1 e2,
    outcome r1 = Ok tt
    /\ logs (frame r1) = logs Sample.frame2 ++ [e1]
    /\ logs (frame r2) = logs Sample.frame2 ++ [e2]
    /\ topics e1 = firstn 1 (topics e2)
    /\ data e1 = data e2
    /\ address e1 = address e2
    /\ memory (frame r1) = memory (frame r2)
    /\ gas_left (frame r2) <= gas_left (frame r1).
Proof.
  intros r1 r2.
  apply (log_n_fewer_topics (C:=Sample.collaborators)
           sample_fees_unsigned Sample.frame2 1%nat 2%nat).
  - lia.
  - vm_compute. reflexivity.
Defined.

(** X10 on the sample: a call with one topic that grows memory, then
    one with none. *)
Lemma log_n_twice_witness :
  let evm := mkEvm [0; 36; 10; 2; 2] Sample.deadbeef 5000 Sample.contract [] in
  let r1 := log_n (C:=Sample.collaborators) evm 1 in
  let r2 := log_n (C:=Sample.collaborators) (frame r1) 0 in
  exists start1 size1 ts1 start2 size2 ts2 e1 e2,
    popped (effects r1) = start1 :: size1 :: ts1
    /\ popped (effects r2) = start2 :: size2 :: ts2
    /\ length ts1 = 1%nat
    /\ length ts2 = 0%nat
    /\ stack evm
       = (start1 :: size1 :: ts1) ++ (start2 :: size2 :: ts2)
         ++ stack (frame r2)
    /\ logs (frame r2) = logs evm ++ [e1; e2]
    /\ topics e1 = map to_be_bytes32 ts1
    /\ topics e2 = map to_be_bytes32 ts2
    /\ memory (frame r1) = Sample.grow (memory evm) start1 size1
    /\ memory (frame r2) = Sample.grow (memory (frame r1)) start2 size2
    /\ data e1 = Sample.read (memory (frame r1)) start1 size1
    /\ data e2 = Sample.read (memory (frame r2)) start2 size2
    /\ In (EDebit (fee_sum (C:=Sample.collaborators)
                           (memory evm) start1 size1 1))
          (effects r1)
    /\ In (EDebit (fee_sum (C:=Sample.collaborators)
                           (memory (frame r1)) start2 size2 0))
          (effects r2)
    /\ gas_left (frame r2)
       = gas_left evm
         - fee_sum (C:=Sample.collaborators) (memory evm) start1 size1 1
         - fee_sum (C:=Sample.collaborators)
                   (memory (frame r1)) start2 size2 0.
Proof.
  intros evm r1 r2.
  apply (log_n_twice (C:=Sample.collaborators) evm 1%nat 0%nat).
  - vm_compute. reflexivity.
  - vm_compute. reflexivity.
Defined.

(** X11 on a sample frame deep enough for every variant. *)
Lemma log_variants_stack_delta_witness :
  let evm := mkEvm [0; 4; 10; 11; 12; 13; 99] Sample.deadbeef 5000
                   Sample.contract [] in
  length (stack (frame (log0 (C:=Sample.collaborators) evm))) = 5%nat
  /\ length (stack (frame (log1 (C:=Sample.collaborators) evm))) = 4%nat
  /\ length (stack (frame (log2 (C:=Sample.collaborators) evm))) = 3%nat
  /\ length (stack (frame (log3 (C:=Sample.collaborators) evm))) = 2%nat
  /\ length (stack (frame (log4 (C:=Sample.collaborators) evm))) = 1%nat.
Proof.
  intros evm.
  destruct (log_variants_stack_delta (C:=Sample.collaborators) evm)
    as (H0 & H1 & H2 & H3 & H4).
  pose proof (H0 ltac:(vm_compute; reflexivity)) as E0.
  pose proof (H1 ltac:(vm_compute; reflexivity)) as E1.
  pose proof (H2 ltac:(vm_compute; reflexivity)) as E2.
  pose proof (H3 ltac:(vm_compute; reflexivity)) as E3.
  pose proof (H4 ltac:(vm_compute; reflexivity)) as E4.
  cbn [stack length evm] in E0, E1, E2, E3, E4.
  repeat split; lia.
Defined.

Section GasUse.
Context {C : Collaborators}.

(** X12.  With unsigned fee terms and machine words as operands, a frame
    whose gas does not even cover the base fee plus the topic fees can
    never log: the call fails and appends nothing. *)
Theorem log_n_needs_base_and_topic_fee
        (Hu : fees_unsigned C) (Hg : growth_fee_unsigned C)
        (evm : Evm) (n : nat) :
  Forall is_U256 (stack evm) ->
  gas_left evm < GAS_LOG + GAS_LOG_TOPIC * Z.of_nat n ->
  is_ok (outcome (log_n evm n)) = false
  /\ logs (frame (log_n evm n)) = logs evm.
Proof.
  intros Hwf Hlt.
  assert (Hfail : is_ok (outcome (log_n evm n)) = false).
  { destruct (outcome (log_n evm n)) as [[]|e] eqn:Ho; [|reflexivity].
    exfalso. apply log_n_ok_inv in Ho.
    destruct Ho as (start & size & ts & rest & fee & Hst & _ & Hf & Hge & _).
    rewrite Hst in Hwf.
    apply Forall_cons_iff in Hwf. destruct Hwf as [[Hs0 _] Hwf].
    apply Forall_cons_iff in Hwf. destruct Hwf as [[Hz0 _] _].
    apply log_gas_cost_ok in Hf. destruct Hf as (-> & _).
    destruct Hu as (Hb & Hd & Ht).
    pose proof (Hg (memory evm) start size Hs0 Hz0).
    unfold fee_sum in Hge. nia. }
  split; [exact Hfail | apply log_n_raise_logs; exact Hfail].
Qed.

(** X13.  Each topic costs exactly the per-topic fee: when the calls
    with [n1] and with [n2] topics both return normally on the same
    frame, the gas they leave differs by [GAS_LOG_TOPIC] times the
    difference in the number of topics. *)
Theorem log_n_topic_fee_linear (evm : Evm) (n1 n2 : nat) :
  outcome (log_n evm n1) = Ok tt ->
  outcome (log_n evm n2) = Ok tt ->
  gas_left (frame (log_n evm n1)) - gas_left (frame (log_n evm n2))
  = GAS_LOG_TOPIC * (Z.of_nat n2 - Z.of_nat n1).
Proof.
  intros Hok1 Hok2.
  apply log_n_ok_inv in Hok1.
  destruct Hok1 as (s1 & z1 & ts1 & rest1 & fee1 & Hst1 & _ & Hf1 & _ & ->).
  apply log_n_ok_inv in Hok2.
  destruct Hok2 as (s2 & z2 & ts2 & rest2 & fee2 & Hst2 & _ & Hf2 & _ & ->).
  rewrite Hst1 in Hst2. injection Hst2 as <- <- _.
  apply log_gas_cost_ok in Hf1. destruct Hf1 as (-> & _).
  apply log_gas_cost_ok in Hf2. destruct Hf2 as (-> & _).
  cbn [frame gas_left]. unfold fee_sum. ring.
Qed.

End GasUse.

(** X12 on the sample: 700 gas against a base and topic fee of 750. *)
Lemma log_n_needs_base_and_topic_fee_witness :
  let evm := mkEvm [0; 0; 10] [] 700 Sample.contract [] in
  is_ok (outcome (log_n (C:=Sample.collaborators) evm 1)) = false
  /\ logs (frame (log_n (C:=Sample.collaborators) evm 1)) = logs evm.
Proof.
  intros evm.
  apply (log_n_needs_base_and_topic_fee (C:=Sample.collaborators)
           sample_fees_unsigned sample_growth_fee_unsigned evm 1%nat).
  - repeat constructor; apply Z.leb_le; reflexivity.
  - vm_compute. reflexivity.
Defined.

(** X13 on the sample: two topics against none, 750 gas apart. *)
Lemma log_n_topic_fee_linear_witness :
  gas_left (frame (log_n (C:=Sample.collaborators) Sample.frame2 0))
  - gas_left (frame (log_n (C:=Sample.collaborators) Sample.frame2 2))
  = 375 * (Z.of_nat 2 - Z.of_nat 0).
Proof.
  apply (log_n_topic_fee_linear (C:=Sample.collaborators)
           Sample.frame2 0%nat 2%nat).
  - vm_compute. reflexivity.
  - vm_compute. reflexivity.
Defined.
